(** * pyLBM: the geometry and the simulation driver

    A shallow embedding of [pyLBM/geometry.py] and [pyLBM/simulation.py]
    and the properties of them that the specification states.

    Conventions of the embedding.
    - Python [float] and numpy [float64] values are binary64 numbers: the
      kernel's primitive floats.  The arithmetic the two files perform is
      reached through the class [Num], which has the binary64 instance (the
      program) and an exact instance over the rationals (what the same
      formulas give without rounding).
    - A call that can end in [sys.exit()] or in an uncaught exception
      returns an [outcome].
    - Objects that are shared and mutated (the numpy buffers of a
      simulation) live in a heap and are named by their location. *)

From Stdlib Require Import ZArith QArith Floats Lia.
From stdpp Require Import base option list sorting strings.

Set Warnings "-inexact-float".
Set Default Proof Using "Type".
Open Scope Z_scope.

(** ** Python values and control *)

Module Py.

(** The exceptions the two files can meet.  [Unsupported] is not one of
    Python's: it marks a numpy subscript that the embedding of the
    buffers does not represent. *)
Inductive exn :=
| KeyError | IndexError | TypeError | ValueError | NameError
| AttributeError | ZeroDivisionError | Unsupported.

(** How a call ends: it returns, it runs [sys.exit()], or an exception
    leaves it. *)
Inductive outcome (A : Type) :=
| Return (a : A)
| Exit
| Raise (e : exn).
Arguments Return {A} a.
Arguments Exit {A}.
Arguments Raise {A} e.

Definition bind {A B} (c : outcome A) (k : A -> outcome B) : outcome B :=
  match c with
  | Return a => k a
  | Exit => Exit
  | Raise e => Raise e
  end.

Definition returns {A} (c : outcome A) : bool :=
  match c with Return _ => true | _ => false end.

(** [l[i]] on a Python list or along the first axis of an array: a
    negative index counts from the end, an index outside the list raises
    [IndexError]. *)
Definition norm_index (n i : Z) : option Z :=
  if (0 <=? i) && (i <? n) then Some i
  else if (- n <=? i) && (i <? 0) then Some (i + n)
  else None.

Definition index {A} (l : list A) (i : Z) : outcome A :=
  match norm_index (Z.of_nat (length l)) i with
  | Some k =>
      match l !! Z.to_nat k with
      | Some a => Return a
      | None => Raise IndexError
      end
  | None => Raise IndexError
  end.

(** One bound of [l[lo:hi]]: a negative bound counts from the end, and
    the result is clipped to the list. *)
Definition clip (n b : Z) : Z :=
  let b := if b <? 0 then b + n else b in
  Z.max 0 (Z.min n b).

(** [l[lo:hi]] as the first position and the number of items taken. *)
Definition slice_range (n lo hi : Z) : nat * nat :=
  let lo := clip n lo in
  let hi := clip n hi in
  (Z.to_nat lo, Z.to_nat (hi - lo)).

End Py.

Import Py.

Notation "'let!' x ':=' c 'in' k" := (Py.bind c (fun x => k))
  (at level 10, x name, c at level 100, k at level 200).
Notation "'let!' ' p ':=' c 'in' k" :=
  (Py.bind c (fun x => let 'p := x in k))
  (at level 10, p pattern, c at level 100, k at level 200).

(** ** Numbers *)

(** The arithmetic [geometry.py] and [simulation.py] use on bounds, steps
    and times. *)
Class Num (R : Type) := {
  add : R -> R -> R;
  sub : R -> R -> R;
  mul : R -> R -> R;
  div : R -> R -> R;
  of_int : Z -> R;      (* an integer read as a number of the type *)
  is_zero : R -> bool;  (* equal to zero, as [==] decides it *)
}.

(** An integer as a binary64 number (exact below [2^53] in absolute value,
    the range of ranks, coordinates and counts). *)
Definition float_of_Z (n : Z) : float :=
  if n <? 0 then PrimFloat.opp (PrimFloat.of_uint63 (Uint63.of_Z (- n)))
  else PrimFloat.of_uint63 (Uint63.of_Z n).

(** The program's numbers: binary64. *)
#[export] Instance float_Num : Num float := {
  add := PrimFloat.add;
  sub := PrimFloat.sub;
  mul := PrimFloat.mul;
  div := PrimFloat.div;
  of_int := float_of_Z;
  is_zero := fun a => PrimFloat.eqb a 0%float;
}.

(** The same operations without rounding. *)
#[export] Instance Q_Num : Num Q := {
  add := Qplus;
  sub := Qminus;
  mul := Qmult;
  div := Qdiv;
  of_int := inject_Z;
  is_zero := fun a => Qeq_bool a 0%Q;
}.

(** ** [geometry.py] *)

Module geometry.

(** An element added to or removed from the box.  The module that
    defines the elements is not among the files embedded here; the
    geometry reads an element's labels (one per edge of the element)
    and whether it is fluid. *)
Record Element := {
  label : list Z;
  isfluid : bool;
}.

(** The value of the ['label'] key of a box: one integer or a list. *)
Inductive label_value :=
| LabelInt (n : Z)
| LabelList (l : list Z).

Section WithNumbers.
Context {R : Type} `{Num R}.

(** The bounds of one direction, [[min, max]]. *)
Definition interval : Type := R * R.

(** The ['box'] dictionary.  Its keys are fixed and each has its own
    type of value, so it is a record with one optional field per key:
    [None] is a key that is absent, which for ['y'] and ['z'] is also
    how [box.get(key, None)] reads a key bound to [None]. *)
Record Box := {
  box_x : option interval;
  box_y : option interval;
  box_z : option interval;
  box_label_key : option label_value;
}.

(** The dictionary given to [Geometry]: the keys it reads. *)
Record Dico := {
  box : option Box;
  elements : option (list Element);
}.

(** [get_box(dico, log)]: the dimension and the bounds.  A missing
    ['box'] or ['x'] is a [KeyError], handled by an error message and
    [sys.exit()]. *)
Definition get_box (dico : Dico) : outcome (Z * list interval) :=
  match box dico with
  | None => Exit
  | Some b =>
      match box_x b with
      | None => Exit
      | Some bx =>
          let bounds := [bx] in
          let dim := 1 in
          match box_y b with
          | Some boxy =>
              let bounds := bounds ++ [boxy] in
              let dim := dim + 1 in
              match box_z b with
              | Some boxz => Return (dim + 1, bounds ++ [boxz])
              | None => Return (dim, bounds)
              end
          | None => Return (dim, bounds)
          end
      end
  end.

(** *** The cartesian communicator

    MPI numbers the processes of a cartesian grid row by row: the
    last coordinate varies fastest. *)

Fixpoint Get_coords (dims : list Z) (rank : Z) : list Z :=
  match dims with
  | [] => []
  | d :: rest =>
      let stride := fold_right Z.mul 1 rest in
      (rank / stride) `mod` d :: Get_coords rest (rank `mod` stride)
  end.

Definition Get_cart_rank (dims coords : list Z) : Z :=
  fold_left (fun r dc => r * fst dc + snd dc) (zip dims coords) 0.

(** [comm.Shift(i, 1)] on a grid periodic in every direction: the
    ranks one step down and one step up along direction [i]. *)
Definition Shift (dims : list Z) (rank : Z) (i : nat) : Z * Z :=
  let coords := Get_coords dims rank in
  let d := default 1 (dims !! i) in
  let c := default 0 (coords !! i) in
  (Get_cart_rank dims (<[i := (c - 1) `mod` d]> coords),
   Get_cart_rank dims (<[i := (c + 1) `mod` d]> coords)).

(** *** The geometry *)

Record Geometry := {
  dim : Z;
  bounds : list interval;
  comm_dims : list Z;         (* the grid of [self.comm] *)
  comm_coords : list Z;       (* this process in the grid *)
  isInterface : list bool;
  list_elem : list Element;
  box_label : list Z;
}.

(** The loop that sets [isInterface]: an edge of the box is an
    interface when the neighbour across it is another process. *)
Definition interface_flags (dims : list Z) (rank : Z) (dim : Z)
  : list bool :=
  fold_left
    (fun isInterface i =>
       let voisins := Shift dims rank i in
       let isInterface :=
         if negb (fst voisins =? rank)
         then <[(i * 2)%nat := true]> isInterface else isInterface in
       if negb (snd voisins =? rank)
       then <[(i * 2 + 1)%nat := true]> isInterface else isInterface)
    (seq 0 (Z.to_nat dim))
    (replicate (Z.to_nat (2 * dim)) false).

(** The bounds of the process at [coords] in the grid [split].  The
    bounds are an array of one row [[min, max]] per direction; [lo] and
    [hi] are its columns [bounds[:, 0]] and [bounds[:, 1]], and the
    operations on columns go entry by entry:
    [t = (hi - lo) / split], [hi = lo + t * (coords + 1)] and then
    [lo = lo + t * coords]. *)
Definition local_bounds (bounds : list interval) (split coords : list Z)
  : list interval :=
  let lo := fst <$> bounds in
  let hi := snd <$> bounds in
  let t := zip_with div (zip_with sub hi lo) (of_int <$> split) in
  let hi := zip_with add lo
              (zip_with mul t (of_int <$> ((fun c => c + 1) <$> coords))) in
  let lo := zip_with add lo (zip_with mul t (of_int <$> coords)) in
  zip lo hi.

Section Init.
(** The process group: [comm.Get_size()], the rank of this process
    in the cartesian communicator, and [mpi.Compute_dims]. *)
Variable size : Z.
Variable rank : Z.
Variable Compute_dims : Z -> Z -> list Z.

(** [Geometry.__init__(self, dico)].  [Compute_dims(size, dim)] has
    [dim] entries: an answer of another length could not be combined
    with the columns of the bounds. *)
Definition Geometry_init (dico : Dico) : outcome Geometry :=
  let! '(dim, bounds) := get_box dico in
  let split := Compute_dims size dim in
  if negb (Z.of_nat (length split) =? dim) then Raise ValueError else
  let coords := Get_coords split rank in
  let bounds := local_bounds bounds split coords in
  let isInterface := interface_flags split rank dim in
  let list_elem := [] in
  let dummylab := default (LabelInt 0) (b ← box dico; box_label_key b) in
  let box_label :=
    match dummylab with
    | LabelInt n => replicate (Z.to_nat (2 * dim)) n
    | LabelList l => l
    end in
  let list_elem := list_elem ++ default [] (elements dico) in
  Return {| dim := dim; bounds := bounds;
            comm_dims := split; comm_coords := coords;
            isInterface := isInterface;
            list_elem := list_elem; box_label := box_label |}.
End Init.

(** What [local_bounds] gives for one direction, for the process at
    coordinate [c] of [s]: [t = (max - min) / s], then
    [[min + t * c, min + t * (c + 1)]]. *)
Definition local_interval (b : interval) (s c : Z) : interval :=
  let t := div (sub (snd b) (fst b)) (of_int s) in
  (add (fst b) (mul t (of_int c)), add (fst b) (mul t (of_int (c + 1)))).

(** [add_elem(self, elem)]. *)
Definition add_elem (g : Geometry) (elem : Element) : Geometry :=
  {| dim := dim g; bounds := bounds g;
     comm_dims := comm_dims g; comm_coords := comm_coords g;
     isInterface := isInterface g;
     list_elem := list_elem g ++ [elem]; box_label := box_label g |}.

(** [np.array(l, dtype=np.int32)] on integers: the value modulo
    [2^32], read as a signed number. *)
Definition int32 (n : Z) : Z := (n + 2 ^ 31) `mod` 2 ^ 32 - 2 ^ 31.

Fixpoint insert_unique (a : Z) (l : list Z) : list Z :=
  match l with
  | [] => [a]
  | b :: l' =>
      if a <? b then a :: l
      else if a =? b then l
      else b :: insert_unique a l'
  end.

(** [np.unique(l)]: the sorted values of [l], each once. *)
Definition unique (l : list Z) : list Z :=
  fold_right insert_unique [] l.

(** [np.union1d(a, b)] is [np.unique(np.concatenate((a, b)))]. *)
Definition union1d (a b : list Z) : list Z := unique (a ++ b).

(** [list_of_labels(self)]. *)
Definition list_of_labels (g : Geometry) : list Z :=
  fold_left (fun L elem => union1d L (label elem))
            (list_elem g) (int32 <$> box_label g).

End WithNumbers.

Arguments Box R : clear implicits.
Arguments Dico R : clear implicits.
Arguments Geometry R : clear implicits.
Arguments interval R : clear implicits.

End geometry.

(** ** [simulation.py] *)

(** *** Arrays

    A buffer of the simulation is a numpy array with one axis for the
    velocity slots (the first axis in the moment-index-fastest layout,
    the last one in the spatial-index-fastest layout) and the other axes
    for the grid, halo included.  It is kept as its shape and its
    sequence of slots, each slot being the field over the grid that
    [a[k]], respectively [a[:, :, k]], designates. *)

Record ndarray {slab : Type} := {
  shape : list Z;
  slots : list slab;
}.
Arguments ndarray slab : clear implicits.

#[export] Instance ndarray_inhabited {slab} : Inhabited (ndarray slab) :=
  populate {| shape := []; slots := [] |}.

(** *** The classes [simulation.py] imports

    [Stencil], [Domain], [Scheme] and [Boundary] are defined in files
    that are not embedded here.  Of each, the record holds the attributes
    that [simulation.py] reads and, for the scheme, the methods it calls:
    a method is given by the contents of its array arguments after the
    call, in the order of the arguments. *)

Module Stencil.
Record t := {
  nv : list Z;       (* number of velocities of each scheme *)
  nv_ptr : list Z;   (* their offsets in the packed buffers *)
}.
End Stencil.

Module Domain.
Record t {R slab : Type} := {
  dim : Z;
  dx : R;
  Na : list Z;             (* points per direction, halo included *)
  x : list (list R);       (* coordinates along each direction *)
  in_or_out : slab;
  valin : R;
}.
Arguments t : clear implicits.
End Domain.

Module Scheme.
Record t {R slab Boundary : Type} := {
  dim : Z;
  la : R;
  nv_on_beg : bool;
  stencil : Stencil.t;
  set_boundary_conditions :
    ndarray slab -> ndarray slab -> Boundary -> bool ->
    ndarray slab * ndarray slab;
  transport : ndarray slab -> ndarray slab;
  f2m : ndarray slab -> ndarray slab -> ndarray slab * ndarray slab;
  relaxation : ndarray slab -> ndarray slab;
  m2f : ndarray slab -> ndarray slab -> ndarray slab * ndarray slab;
  equilibrium : ndarray slab -> ndarray slab;
  onetimestep :
    ndarray slab -> ndarray slab -> ndarray slab -> slab -> R ->
    ndarray slab * ndarray slab * ndarray slab;
}.
Arguments t : clear implicits.
End Scheme.

Module simulation.

Definition loc := nat.

(** The calls of a run that the specification speaks of. *)
Inductive method :=
| SetBoundaryConditions | Transport | F2m | Relaxation | M2f
| Equilibrium | Onetimestep.

Inductive event :=
| Alloc (l : loc) (msize : list Z)         (* [np.empty(msize)] *)
| Store (buf : loc) (slot : nat)           (* one slot is assigned *)
| Copy (dst src : loc)                     (* [dst[:] = src[:]] *)
| Call (f : method) (args : list loc).     (* [self.scheme.f(args)] *)

(** The subscript [j] of [sim.m[i][j]]. *)
Record pyslice := {
  start : option Z;
  stop : option Z;
  step : option Z;
}.

Inductive subscript :=
| Int (j : Z)
| Slice (j : pyslice).

(** What an accessor returns: not a copy but a window on a buffer. *)
Inductive view :=
| SlotView (buf : loc) (k : nat)
| RangeView (buf : loc) (first count : nat).

(** An argument of an initialisation function. *)
Inductive arg {R : Type} :=
| Axis (a : list R)          (* [x] *)
| AxisColumn (a : list R)    (* [x[:, np.newaxis]] *)
| AxisRow (a : list R)       (* [y[np.newaxis, :]] *)
| Extra (v : R).
Arguments arg R : clear implicits.

(** A value [v] of an ['init'] dictionary: [v[0]] is the function,
    [v[1:]] the rest of the tuple. *)
Record init_value {R slab : Type} := {
  init_fun : list (arg R) -> slab;
  init_rest : list (list R);
}.
Arguments init_value : clear implicits.

(** The dictionary of one scheme, and the one given to [Simulation]:
    the keys [simulation.py] reads.  An ['init'] dictionary is the
    list of its items in the order the loop meets them. *)
Record SchemeDico {R slab : Type} := {
  init : option (list (Z * init_value R slab));
}.
Arguments SchemeDico : clear implicits.

Record Dico {R slab : Type} := {
  inittype : option string;
  schemes : option (list (SchemeDico R slab));
}.
Arguments Dico : clear implicits.

Section WithTypes.
Context {R : Type} `{Num R} {slab Boundary : Type}.

(** What a slot holds after [np.empty], which does not initialise. *)
Variable junk : slab.

(** The constructors of the imported classes. *)
Variable Domain_new : Dico R slab -> outcome (Domain.t R slab).
Variable Scheme_new :
  Dico R slab -> bool -> outcome (Scheme.t R slab Boundary).
Variable Boundary_new :
  Domain.t R slab -> Dico R slab -> outcome Boundary.

(** **** State: the buffers and the calls so far *)

Record world := {
  heap : list (ndarray slab);
  log : list event;
}.

Definition M (A : Type) : Type := world -> outcome A * world.

Definition ret {A} (a : A) : M A := fun w => (Return a, w).

Definition lift {A} (c : outcome A) : M A := fun w => (c, w).

Definition mbind {A B} (c : M A) (k : A -> M B) : M B :=
  fun w =>
    match c w with
    | (Return a, w') => k a w'
    | (Exit, w') => (Exit, w')
    | (Raise e, w') => (Raise e, w')
    end.

Notation "'let*' x ':=' c 'in' k" := (mbind c (fun x => k))
  (at level 10, x name, c at level 100, k at level 200).
Notation "'let*' ' p ':=' c 'in' k" :=
  (mbind c (fun x => let 'p := x in k))
  (at level 10, p pattern, c at level 100, k at level 200).

Definition emit (e : event) : M unit :=
  fun w => (Return tt, {| heap := heap w; log := log w ++ [e] |}).

Definition read (l : loc) : M (ndarray slab) :=
  fun w => (Return (heap w !!! l), w).

Definition write (l : loc) (a : ndarray slab) : M unit :=
  fun w => (Return tt, {| heap := <[l := a]> (heap w); log := log w |}).

(** [np.empty(msize, ...)] for a buffer of [nslots] slots. *)
Definition np_empty (nslots : Z) (msize : list Z) : M loc :=
  fun w =>
    if forallb (Z.leb 0) msize then
      let l := length (heap w) in
      (Return l,
       {| heap := heap w ++
            [{| shape := msize;
                slots := replicate (Z.to_nat nslots) junk |}];
          log := log w ++ [Alloc l msize] |})
    else (Raise ValueError, w).

(** A method of the scheme on one, two or three buffers. *)
Definition call1 (f : method) (k : ndarray slab -> ndarray slab)
    (a : loc) : M unit :=
  let* _ := emit (Call f [a]) in
  let* x := read a in
  write a (k x).

Definition call2 (f : method)
    (k : ndarray slab -> ndarray slab -> ndarray slab * ndarray slab)
    (a b : loc) : M unit :=
  let* _ := emit (Call f [a; b]) in
  let* x := read a in
  let* y := read b in
  let* _ := write a (fst (k x y)) in
  write b (snd (k x y)).

Definition call3 (f : method)
    (k : ndarray slab -> ndarray slab -> ndarray slab ->
         ndarray slab * ndarray slab * ndarray slab)
    (a b c : loc) : M unit :=
  let* _ := emit (Call f [a; b; c]) in
  let* x := read a in
  let* y := read b in
  let* z := read c in
  let* _ := write a (fst (fst (k x y z))) in
  let* _ := write b (snd (fst (k x y z))) in
  write c (snd (k x y z)).

(** [dst[:] = src[:]], between buffers of one shape (the buffers of a
    simulation are allocated with one shape and never reshaped). *)
Definition copy_buffer (dst : option loc) (src : loc) : M unit :=
  match dst with
  | None => lift (Raise AttributeError)
  | Some d =>
      let* a := read src in
      let* b := read d in
      if bool_decide (shape a = shape b) then
        let* _ := write d {| shape := shape b; slots := slots a |} in
        emit (Copy d src)
      else lift (Raise ValueError)
  end.

Fixpoint for_each {A} (body : A -> M unit) (l : list A) : M unit :=
  match l with
  | [] => ret tt
  | a :: l' => let* _ := body a in for_each body l'
  end.

(** **** The simulation object

    The attributes [type] and [order] are the constants ['float64']
    and ['C'], and [lvl] is about logging; they are left out. *)
Record Simulation := {
  domain : Domain.t R slab;
  scheme : Scheme.t R slab Boundary;
  t : R;
  nt : Z;
  dt : R;
  dim : Z;
  nv_on_beg : bool;
  _m : loc;
  _F : loc;
  _Fold : option loc;   (* set in the spatial-index-fastest layout *)
  bc : Boundary;
}.

Definition nv_ptr_at (self : Simulation) (i : Z) : outcome Z :=
  Py.index (Stencil.nv_ptr (Scheme.stencil (scheme self))) i.

(** Which slot [a[idx]] (moment index first) or [a[:, :, idx]]
    (moment index last) designates.  The second form needs three
    axes; on an array of more axes it would cut a direction of the
    grid, which this embedding does not represent. *)
Definition slot_of (self : Simulation) (a : ndarray slab) (idx : Z)
  : outcome nat :=
  let along_slots :=
    match Py.norm_index (Z.of_nat (length (slots a))) idx with
    | Some k => Return (Z.to_nat k)
    | None => Raise IndexError
    end in
  if nv_on_beg self then along_slots
  else
    match Nat.compare (length (shape a)) 3 with
    | Lt => Raise IndexError
    | Eq => along_slots
    | Gt => Raise Unsupported
    end.

(** The same for [a[lo:hi]] and [a[:, :, lo:hi]]. *)
Definition range_of (self : Simulation) (a : ndarray slab) (lo hi : Z)
  : outcome (nat * nat) :=
  let along_slots :=
    Return (Py.slice_range (Z.of_nat (length (slots a))) lo hi) in
  if nv_on_beg self then along_slots
  else
    match Nat.compare (length (shape a)) 3 with
    | Lt => Raise IndexError
    | Eq => along_slots
    | Gt => Raise Unsupported
    end.

(** [buf[idx] = value], respectively [buf[:, :, idx] = value]. *)
Definition store_slot (self : Simulation) (buf : loc) (idx : Z)
    (value : slab) : M unit :=
  let* a := read buf in
  let* k := lift (slot_of self a idx) in
  let* _ := write buf {| shape := shape a;
                         slots := <[k := value]> (slots a) |} in
  emit (Store buf k).

(** What a view shows of the buffers as they are now. *)
Definition view_read (h : list (ndarray slab)) (v : view) : list slab :=
  match v with
  | SlotView buf k => option_list (slots (h !!! buf) !! k)
  | RangeView buf first count =>
      take count (drop first (slots (h !!! buf)))
  end.

(** **** The accessors *)

(** [m(self, i, j)], the getter of [sim.m[i][j]]. *)
Definition m (self : Simulation) (i : Z) (j : subscript) : M view :=
  match j with
  | Slice j =>
      let jstart := default 0 (start j) in
      let* jstop :=
        lift (match stop j with
              | Some e => Return e
              | None =>
                  let! n := Py.index
                              (Stencil.nv (Scheme.stencil (scheme self)))
                              i in
                  Return (n - 1)
              end) in
      let* base := lift (nv_ptr_at self i) in
      let* a := read (_m self) in
      let* '(first, count) :=
        lift (range_of self a (base + jstart) (base + jstop)) in
      ret (RangeView (_m self) first count)
  | Int j =>
      let* base := lift (nv_ptr_at self i) in
      let* a := read (_m self) in
      let* k := lift (slot_of self a (base + j)) in
      ret (SlotView (_m self) k)
  end.

(** [nv_ptr[i] + j], which is defined for an integer [j] only. *)
Definition offset (self : Simulation) (i : Z) (j : subscript)
  : outcome Z :=
  let! base := nv_ptr_at self i in
  match j with
  | Int j => Return (base + j)
  | Slice _ => Raise TypeError
  end.

(** The setter of [m]; it returns the object as it is afterwards. *)
Definition m_setter (self : Simulation) (i : Z) (j : subscript)
    (value : slab) : M Simulation :=
  let* idx := lift (offset self i j) in
  let* _ := store_slot self (_m self) idx value in
  ret self.

(** [F(self, i, j)], the getter of [sim.F[i][j]]. *)
Definition F (self : Simulation) (i : Z) (j : subscript) : M view :=
  let* idx := lift (offset self i j) in
  let* a := read (_F self) in
  let* k := lift (slot_of self a idx) in
  ret (SlotView (_F self) k).

Definition F_setter (self : Simulation) (i : Z) (j : subscript)
    (value : slab) : M Simulation :=
  let* idx := lift (offset self i j) in
  let* _ := store_slot self (_F self) idx value in
  ret self.

(** **** [initialization] *)

Definition key {A} (entry : option A) : outcome A :=
  match entry with
  | Some a => Return a
  | None => Raise KeyError
  end.

(** The tuple [coords]; it is bound in dimension 1 and 2 only. *)
Definition coords_of (self : Simulation) : outcome (option (list (arg R))) :=
  let xs := Domain.x (domain self) in
  if dim self =? 1 then
    let! x := Py.index xs 0 in
    Return (Some [Axis x])
  else if dim self =? 2 then
    let! x := Py.index xs 0 in
    let! y := Py.index xs 1 in
    Return (Some [AxisColumn x; AxisRow y])
  else Return None.

(** The buffer the initialisation functions fill. *)
Definition init_target (self : Simulation) (moments : bool) : loc :=
  if moments then _m self else _F self.

(** The body of the inner loop, for the item [(k, v)] of scheme [ns]. *)
Definition fill_item (self : Simulation) (moments : bool)
    (coords : option (list (arg R))) (ns : Z)
    (kv : Z * init_value R slab) : M unit :=
  let f := init_fun (snd kv) in
  let extraargs :=
    match init_rest (snd kv) with
    | [e] => Extra <$> e        (* [len(v) == 2] *)
    | _ => []
    end in
  let* fargs :=
    lift (match coords with
          | Some c => Return (c ++ extraargs)
          | None => Raise NameError
          end) in
  let value := f fargs in
  let* base := lift (nv_ptr_at self ns) in
  store_slot self (init_target self moments) (base + fst kv) value.

Definition fill_scheme (self : Simulation) (moments : bool)
    (coords : option (list (arg R)))
    (nss : Z * SchemeDico R slab) : M unit :=
  let* items := lift (key (init (snd nss))) in
  for_each (fill_item self moments coords (fst nss)) items.

Definition enumerate {A} (l : list A) : list (Z * A) :=
  imap (fun ns s => (Z.of_nat ns, s)) l.

Definition close_initialization (self : Simulation) (moments : bool)
  : M unit :=
  let sch := scheme self in
  if moments then
    let* _ := call1 Equilibrium (Scheme.equilibrium sch) (_m self) in
    call2 M2f (Scheme.m2f sch) (_m self) (_F self)
  else
    call2 F2m (Scheme.f2m sch) (_F self) (_m self).

Definition initialization (self : Simulation) (dico : Dico R slab)
  : M Simulation :=
  let* inittype := lift (key (inittype dico)) in
  let* coords := lift (coords_of self) in
  let* schemes := lift (key (schemes dico)) in
  let moments := String.eqb inittype "moments" in
  let* _ := for_each (fill_scheme self moments coords)
                     (enumerate schemes) in
  let* _ := close_initialization self moments in
  let* _ := if negb (nv_on_beg self)
            then copy_buffer (_Fold self) (_F self)
            else ret tt in
  ret self.

(** **** [__init__] *)

(** [try: ... except KeyError: print ...; sys.exit()]. *)
Definition exit_on_KeyError {A} (c : outcome A) : outcome A :=
  match c with
  | Raise KeyError => Exit
  | _ => c
  end.

(** [a / b] on Python floats: a [ZeroDivisionError] when [b] is zero. *)
Definition truediv (a b : R) : outcome R :=
  if is_zero b then Raise ZeroDivisionError else Return (div a b).

(** The three buffers: [_m] and [_F], and [_Fold] in the
    spatial-index-fastest layout. *)
Definition allocate (nv_on_beg : bool) (nvtot : Z) (Na : list Z)
  : M (loc * loc * option loc) :=
  if nv_on_beg then
    let msize := [nvtot] ++ reverse Na in
    let* _m := np_empty nvtot msize in
    let* _F := np_empty nvtot msize in
    ret (_m, _F, None)
  else
    let msize := reverse Na ++ [nvtot] in
    let* _m := np_empty nvtot msize in
    let* _F := np_empty nvtot msize in
    let* _Fold := np_empty nvtot msize in
    ret (_m, _F, Some _Fold).

(** [Simulation(dico, domain, scheme, type, nv_on_beg)]. *)
Definition Simulation_init (dico : Dico R slab)
    (domain : option (Domain.t R slab))
    (scheme : option (Scheme.t R slab Boundary))
    (nv_on_beg : bool) : M Simulation :=
  let* domain :=
    lift (exit_on_KeyError
            (match domain with
             | Some d => Return d
             | None => Domain_new dico
             end)) in
  let* scheme :=
    lift (exit_on_KeyError
            (match scheme with
             | Some s => Return s
             | None => Scheme_new dico nv_on_beg
             end)) in
  let t := of_int 0 in
  let nt := 0 in
  let* dt := lift (truediv (Domain.dx domain) (Scheme.la scheme)) in
  if negb (Domain.dim domain =? Scheme.dim scheme) then lift Exit else
  let dim := Domain.dim domain in
  let nv_on_beg := Scheme.nv_on_beg scheme in
  let* nvtot :=
    lift (Py.index (Stencil.nv_ptr (Scheme.stencil scheme)) (-1)) in
  let* '(_m, _F, _Fold) := allocate nv_on_beg nvtot (Domain.Na domain) in
  let* bc := lift (Boundary_new domain dico) in
  initialization
    {| domain := domain; scheme := scheme;
       t := t; nt := nt; dt := dt; dim := dim; nv_on_beg := nv_on_beg;
       _m := _m; _F := _F; _Fold := _Fold; bc := bc |}
    dico.

(** **** [one_time_step] *)

(** The attribute updates of [one_time_step]. *)
Definition swap_buffers (self : Simulation) (ftmp : loc) : Simulation :=
  {| domain := domain self; scheme := scheme self;
     t := t self; nt := nt self; dt := dt self; dim := dim self;
     nv_on_beg := nv_on_beg self;
     _m := _m self; _F := ftmp; _Fold := Some (_F self);
     bc := bc self |}.

Definition advance_clock (self : Simulation) : Simulation :=
  {| domain := domain self; scheme := scheme self;
     t := add (t self) (dt self); nt := nt self + 1;
     dt := dt self; dim := dim self;
     nv_on_beg := nv_on_beg self;
     _m := _m self; _F := _F self; _Fold := _Fold self;
     bc := bc self |}.

Definition one_time_step (self : Simulation) : M Simulation :=
  let sch := scheme self in
  let* _ :=
    call2 SetBoundaryConditions
      (fun F m =>
         Scheme.set_boundary_conditions sch F m (bc self)
           (nv_on_beg self))
      (_F self) (_m self) in
  let* self :=
    if nv_on_beg self then
      let* _ := call1 Transport (Scheme.transport sch) (_F self) in
      let* _ := call2 F2m (Scheme.f2m sch) (_F self) (_m self) in
      let* _ := call1 Relaxation (Scheme.relaxation sch) (_m self) in
      let* _ := call2 M2f (Scheme.m2f sch) (_m self) (_F self) in
      ret self
    else
      let* _ := copy_buffer (_Fold self) (_F self) in
      let* ftmp := lift (match _Fold self with
                         | Some l => Return l
                         | None => Raise AttributeError
                         end) in
      let* _ :=
        call3 Onetimestep
          (fun m F Fold =>
             Scheme.onetimestep sch m F Fold
               (Domain.in_or_out (domain self))
               (Domain.valin (domain self)))
          (_m self) (_F self) ftmp in
      ret (swap_buffers self ftmp) in
  ret (advance_clock self).

(** [n] calls of [one_time_step] in a row. *)
Fixpoint run (n : nat) (self : Simulation) : M Simulation :=
  match n with
  | O => ret self
  | S n' => let* self := one_time_step self in run n' self
  end.

(** **** Vocabulary of the properties *)

(** The calls a step makes in the moment-index-fastest layout. *)
Definition step_events (self : Simulation) : list event :=
  [Call SetBoundaryConditions [_F self; _m self];
   Call Transport [_F self];
   Call F2m [_F self; _m self];
   Call Relaxation [_m self];
   Call M2f [_m self; _F self]].

(** The same step on the contents of the two buffers: from [F] and
    [m] before the step to [(m, F)] after it. *)
Definition step_result (self : Simulation) (F0 m0 : ndarray slab)
  : ndarray slab * ndarray slab :=
  let sch := scheme self in
  let bcd :=
    Scheme.set_boundary_conditions sch F0 m0 (bc self) (nv_on_beg self) in
  let F2 := Scheme.transport sch (fst bcd) in
  let fm := Scheme.f2m sch F2 (snd bcd) in
  let m4 := Scheme.relaxation sch (snd fm) in
  let mf := Scheme.m2f sch m4 (fst fm) in
  (fst mf, snd mf).

(** What a step does in the spatial-index-fastest layout when
    [_Fold] is the buffer [ftmp]. *)
Definition swap_step_events (self : Simulation) (ftmp : loc)
  : list event :=
  [Call SetBoundaryConditions [_F self; _m self];
   Copy ftmp (_F self);
   Call Onetimestep [_m self; _F self; ftmp]].

Definition is_call (f : method) (e : event) : bool :=
  match e with
  | Call g _ =>
      match f, g with
      | SetBoundaryConditions, SetBoundaryConditions
      | Transport, Transport | F2m, F2m | Relaxation, Relaxation
      | M2f, M2f | Equilibrium, Equilibrium
      | Onetimestep, Onetimestep => true
      | _, _ => false
      end
  | _ => false
  end.

Definition is_store_into (buf : loc) (e : event) : bool :=
  match e with Store b _ => Nat.eqb b buf | _ => false end.

(** From [w] to [w'] the only writes were slots of [buf]
    assigned. *)
Definition fills (buf : loc) (w w' : world) : Prop :=
  (exists stores,
      log w' = log w ++ stores /\
      Forall (fun e => is_store_into buf e = true) stores) /\
  (forall l, l <> buf -> heap w' !!! l = heap w !!! l) /\
  length (heap w') = length (heap w) /\
  shape (heap w' !!! buf) = shape (heap w !!! buf).

(** The allocations of the constructor, for buffers of shape
    [msize]. *)
Definition alloc_events (self : Simulation) (msize : list Z)
  : list event :=
  Alloc (_m self) msize :: Alloc (_F self) msize ::
  match _Fold self with
  | Some l => [Alloc l msize]
  | None => []
  end.

(** The calls that end [initialization]. *)
Definition closing_events (self : Simulation) (moments : bool)
  : list event :=
  (if moments
   then [Call Equilibrium [_m self]; Call M2f [_m self; _F self]]
   else [Call F2m [_F self; _m self]]) ++
  (if nv_on_beg self then []
   else match _Fold self with
        | Some l => [Copy l (_F self)]
        | None => []
        end).

(** [buf[k] = value] on the contents of a buffer, for the pair
    [(k, value)]. *)
Definition assign (a : ndarray slab) (st : nat * slab) : ndarray slab :=
  {| shape := shape a; slots := <[fst st := snd st]> (slots a) |}.

(** The items of the ['init'] dictionaries in the order the two loops
    of [initialization] meet them, each with the number [ns] of its
    scheme. *)
Definition init_items (schs : list (SchemeDico R slab))
  : list (Z * (Z * init_value R slab)) :=
  flat_map (fun nss => (fun kv => (fst nss, kv)) <$>
                         default [] (init (snd nss)))
           (enumerate schs).

(** What the body of the inner loop assigns for the item [(k, v)] of
    the scheme [ns], on a buffer that holds [a]: the slot that
    [nv_ptr[ns] + k] designates, and the value that the function [v[0]] returns on
    [fargs]. *)
Definition assigned (self : Simulation) (a : ndarray slab)
    (coords : option (list (arg R)))
    (item : Z * (Z * init_value R slab)) : outcome (nat * slab) :=
  let v := snd (snd item) in
  let extraargs :=
    match init_rest v with
    | [e] => Extra <$> e
    | _ => []
    end in
  let! fargs := match coords with
                | Some c => Return (c ++ extraargs)
                | None => Raise NameError
                end in
  let! base := nv_ptr_at self (fst item) in
  let! k := slot_of self a (base + fst (snd item)) in
  Return (k, init_fun v fargs).

(** From [w] to [w'] the pairs [stores] were assigned to the buffer
    [buf], in this order, and nothing else was done. *)
Definition stores_into (buf : loc) (stores : list (nat * slab))
    (w w' : world) : Prop :=
  heap w' = <[buf := fold_left assign stores (heap w !!! buf)]> (heap w) /\
  log w' = log w ++ ((fun st => Store buf (fst st)) <$> stores) /\
  (stores <> [] -> (buf < length (heap w))%nat).

(** What the end of [initialization] computes from the contents [m0]
    and [F0] of the two buffers: the new [(m, F)]. *)
Definition init_result (self : Simulation) (moments : bool)
    (m0 F0 : ndarray slab) : ndarray slab * ndarray slab :=
  let sch := scheme self in
  if moments then
    let mf := Scheme.m2f sch (Scheme.equilibrium sch m0) F0 in
    (fst mf, snd mf)
  else
    let fm := Scheme.f2m sch F0 m0 in
    (snd fm, fst fm).

(** The time after [n] steps: [dt] added [n] times, starting from
    [t]. *)
Fixpoint accumulate (n : nat) (dt t : R) : R :=
  match n with
  | O => t
  | S n' => accumulate n' dt (add t dt)
  end.

End WithTypes.

Arguments world slab : clear implicits.
Arguments M slab A : clear implicits.
Arguments Simulation R slab Boundary : clear implicits.

End simulation.

(** ** Example configurations *)

Module examples.
Import geometry.

(** [mpi.Compute_dims] for a run on one process. *)
Definition one_process (size dim : Z) : list Z :=
  replicate (Z.to_nat dim) 1.

(** [mpi.Compute_dims] for a run whose processes are all put along the
    first direction (what MPI answers in one dimension, and in more
    when the number of processes is prime). *)
Definition one_row (size dim : Z) : list Z :=
  size :: replicate (Z.to_nat (dim - 1)) 1.

Definition box_of (bx : float * float) (by_ bz : option (float * float))
  : Dico float :=
  {| box := Some {| box_x := Some bx; box_y := by_; box_z := bz;
                    box_label_key := None |};
     elements := None |}.

(** [{'box': {'x': [0, 1]}}], the first test of [geometry.py]. *)
Definition unit_segment : Dico float :=
  box_of (0, 1)%float None None.

(** [{'box': {'x': [0, 1], 'y': [0, 1]}}], [test_2D(0)]. *)
Definition unit_square : Dico float :=
  box_of (0, 1)%float (Some (0, 1)%float) None.

(** [{'box': {'x': [0, 1], 'z': [0, 2]}}]. *)
Definition z_without_y : Dico float :=
  box_of (0, 1)%float None (Some (0, 2)%float).

(** [{'box': {'x': [0, 0]}}]: a box of zero extent. *)
Definition flat_segment : Dico float :=
  box_of (0, 0)%float None None.



End examples.

(** A small simulation: one scheme with the two velocities [+1] and [-1]
    on a line (the scheme of the one-dimensional demos), with the step
    and the lattice speed of the two-dimensional demo, [dx = 1/256] and
    [la = 20].  The kernels stand for the generated ones. *)
Module toy.
Import simulation.

(** A field over the grid: one value per point. *)
Definition field : Type := list float.

Definition shift_up (f : field) : field :=
  match f with
  | [] => []
  | _ => 0%float :: take (length f - 1) f
  end.

Definition shift_down (f : field) : field :=
  match f with
  | [] => []
  | _ => drop 1 f ++ [0%float]
  end.

Definition on_pair (k : field -> field -> field * field)
    (a into : ndarray field) : ndarray field :=
  match slots a with
  | [a0; a1] =>
      {| shape := shape into; slots := [fst (k a0 a1); snd (k a0 a1)] |}
  | _ => into
  end.

Definition la : float := 20%float.
Definition speed : float := 0.5%float.
Definition rate : float := 1.5%float.

Definition transport (F : ndarray field) : ndarray field :=
  on_pair (fun f0 f1 => (shift_up f0, shift_down f1)) F F.

Definition f2m (F m : ndarray field) : ndarray field * ndarray field :=
  (F, on_pair (fun f0 f1 =>
                 (zip_with PrimFloat.add f0 f1,
                  zip_with (fun a b => la * (a - b))%float f0 f1)) F m).

Definition m2f (m F : ndarray field) : ndarray field * ndarray field :=
  (m, on_pair (fun m0 m1 =>
                 (zip_with (fun a b => (a + b / la) / 2)%float m0 m1,
                  zip_with (fun a b => (a - b / la) / 2)%float m0 m1)) m F).

Definition equilibrium (m : ndarray field) : ndarray field :=
  on_pair (fun m0 m1 => (m0, (fun a => speed * a)%float <$> m0)) m m.

Definition relaxation (m : ndarray field) : ndarray field :=
  on_pair (fun m0 m1 =>
             (m0,
              zip_with (fun a b => b + rate * (speed * a - b))%float m0 m1))
          m m.

Definition onetimestep (m F Fold : ndarray field) (in_or_out : field)
    (valin : float)
  : ndarray field * ndarray field * ndarray field :=
  let m' := relaxation (snd (f2m (transport F) m)) in
  (m', F, snd (m2f m' Fold)).

Definition scheme (dim : Z) (nv_on_beg : bool)
  : Scheme.t float field unit :=
  {| Scheme.dim := dim; Scheme.la := la; Scheme.nv_on_beg := nv_on_beg;
     Scheme.stencil := {| Stencil.nv := [2]; Stencil.nv_ptr := [0; 2] |};
     Scheme.set_boundary_conditions := fun F m _ _ => (F, m);
     Scheme.transport := transport;
     Scheme.f2m := f2m;
     Scheme.relaxation := relaxation;
     Scheme.m2f := m2f;
     Scheme.equilibrium := equilibrium;
     Scheme.onetimestep := onetimestep |}.

(** Four points and a halo of one point at each end along [x]; in two
    dimensions, three points along [y], the fields being stored row
    after row. *)
Definition domain (dim : Z) : Domain.t float field :=
  {| Domain.dim := dim; Domain.dx := 0x1p-8%float;
     Domain.Na := if dim =? 1 then [6] else [6; 3];
     Domain.x := [[-0.125; 0.125; 0.375; 0.625; 0.875; 1.125]%float;
                  [-0.125; 0.125; 0.375]%float];
     Domain.in_or_out := [1; 0; 0; 0; 0; 1]%float;
     Domain.valin := 0%float |}.

(** [1] on the left half of the line, [0] on the right half. *)
Definition step_function (args : list (arg float)) : field :=
  match args with
  | Axis x :: _ | AxisColumn x :: _ =>
      (fun xi => if PrimFloat.ltb xi 0.5 then 1 else 0)%float <$> x
  | _ => []
  end.

Definition dico (inittype : string) : Dico float field :=
  {| inittype := Some inittype;
     schemes :=
       Some [{| init := Some [(0, {| init_fun := step_function;
                                     init_rest := [] |})] |}] |}.

(** The simulation is given its domain and its scheme, so the
    constructors of the two classes are not called. *)
Definition no_domain (d : Dico float field)
  : outcome (Domain.t float field) := Raise KeyError.
Definition no_scheme (d : Dico float field) (nv_on_beg : bool)
  : outcome (Scheme.t float field unit) := Raise KeyError.
Definition boundary (d : Domain.t float field) (c : Dico float field)
  : outcome unit := Return tt.

Definition nothing : world field := {| heap := []; log := [] |}.

(** [Simulation(dico, domain, scheme)] with these. *)
Definition new (inittype : string) (dim : Z) (nv_on_beg : bool)
  : outcome (Simulation float field unit) * world field :=
  Simulation_init [] no_domain no_scheme boundary
    (dico inittype) (Some (domain dim)) (Some (scheme dim nv_on_beg))
    nv_on_beg nothing.

(** The object and the buffers right after the constructor, moment
    index first. *)
Definition sim : Simulation float field unit :=
  {| simulation.domain := domain 1; simulation.scheme := scheme 1 true;
     t := 0%float; nt := 0; dt := (0x1p-8 / 20)%float; dim := 1;
     nv_on_beg := true;
     _m := 0%nat; _F := 1%nat; _Fold := None; bc := tt |}.

(** The buffers right after the constructor. *)
Definition start : world field :=
  Eval vm_compute in snd (new "moments" 1 true).

(** [n] steps from there. *)
Definition after (n : nat)
  : outcome (Simulation float field unit) * world field :=
  run n sim start.

Definition sim_after (n : nat) : Simulation float field unit :=
  match fst (after n) with
  | Return s => s
  | _ => sim
  end.

(** The same in two dimensions, moment index last, the distributions
    being initialised: the object and the buffers right after the
    constructor. *)
Definition sim2 : Simulation float field unit :=
  {| simulation.domain := domain 2; simulation.scheme := scheme 2 false;
     t := 0%float; nt := 0; dt := (0x1p-8 / 20)%float; dim := 2;
     nv_on_beg := false;
     _m := 0%nat; _F := 1%nat; _Fold := Some 2%nat; bc := tt |}.

Definition start2 : world field :=
  Eval vm_compute in snd (new "distributions" 2 false).

End toy.


(** ** [Geometry.visualize]

    The method draws with matplotlib.  It is embedded as the list of the
    calls it makes that depend on the geometry, in their order; the
    calls that set up and show the figure are the same for every
    geometry and are left out. *)

Module drawing.
Import geometry.

Inductive colour := Blue | White.

Inductive command {R : Type} :=
| Plot (xs ys : list R)               (* [plt.plot(xs, ys, plein, lw=5)] *)
| Fill (xs ys : list R)               (* [plt.fill(xs, ys, ..., color=plein)] *)
| Text (x y : R) (s : Z)              (* [plt.text(x, y, s, ...)] *)
| AxisEqual                           (* [plt.axis('equal')] *)
| AxisBox (xmin xmax ymin ymax : R)   (* [plt.axis([xmin, xmax, ymin, ymax])] *)
| Draw (elem : Element) (coul : colour) (viewlabel : bool).
                                      (* [elem._visualize(ax, coul, viewlabel)] *)
Arguments command R : clear implicits.

Section WithNumbers.
Context {R : Type} `{Num R}.

(** [-h], [0.] and [0.5]. *)
Definition neg (h : R) : R := mul (of_int (-1)) h.
Definition zero : R := of_int 0.
Definition half : R := div (of_int 1) (of_int 2).

(** The labels of the box written on a segment: the first one at the
    [xmax] end, the second one at the [xmin] end. *)
Definition segment_texts (g : Geometry R) (xmin xmax l h : R)
  : outcome (list (command R)) :=
  let! lab0 := Py.index (box_label g) 0 in
  let! lab1 := Py.index (box_label g) 1 in
  Return [Text (sub xmax l) (mul (of_int (-2)) h) lab0;
          Text (add xmin l) (mul (of_int (-2)) h) lab1].

(** The labels written on a rectangle: bottom, right, top, left. *)
Definition rectangle_texts (g : Geometry R) (xmin xmax ymin ymax : R)
  : outcome (list (command R)) :=
  let! lab0 := Py.index (box_label g) 0 in
  let! lab1 := Py.index (box_label g) 1 in
  let! lab2 := Py.index (box_label g) 2 in
  let! lab3 := Py.index (box_label g) 3 in
  Return [Text (mul half (add xmin xmax)) ymin lab0;
          Text xmax (mul half (add ymin ymax)) lab1;
          Text (mul half (add xmin xmax)) ymax lab2;
          Text xmin (mul half (add ymin ymax)) lab3].

(** [visualize(self, viewlabel)]. *)
Definition visualize (g : Geometry R) (viewlabel : bool)
  : outcome (list (command R)) :=
  if dim g =? 1 then
    let! b0 := Py.index (bounds g) 0 in
    let xmin := fst b0 in
    let xmax := snd b0 in
    let L := sub xmax xmin in
    let h := div L (of_int 20) in
    let l := div L (of_int 50) in
    let plots :=
      [Plot [add xmin l; xmin; xmin; add xmin l] [neg h; neg h; h; h];
       Plot [sub xmax l; xmax; xmax; sub xmax l] [neg h; neg h; h; h];
       Plot [xmin; xmax] [zero; zero]] in
    let! texts := if viewlabel then segment_texts g xmin xmax l h
                  else Return [] in
    Return (plots ++ texts ++ [AxisEqual])
  else if dim g =? 2 then
    let! b0 := Py.index (bounds g) 0 in
    let! b1 := Py.index (bounds g) 1 in
    let xmin := fst b0 in
    let xmax := snd b0 in
    let ymin := fst b1 in
    let ymax := snd b1 in
    let fill := [Fill [xmin; xmax; xmax; xmin] [ymin; ymin; ymax; ymax]] in
    let! texts := if viewlabel then rectangle_texts g xmin xmax ymin ymax
                  else Return [] in
    let elems :=
      (fun elem =>
         Draw elem (if isfluid elem then Blue else White) viewlabel)
        <$> list_elem g in
    Return (fill ++ texts ++ [AxisBox xmin xmax ymin ymax] ++ elems)
  else Return [].

End WithNumbers.
End drawing.

(** ** More example configurations *)

Module more.
Import geometry simulation.

(** An obstacle whose edges are labelled 1, and a fluid part labelled 0
    and 2. *)
Definition obstacle : Element := {| label := [1]; isfluid := false |}.
Definition pool : Element := {| label := [2; 0]; isfluid := true |}.

(** [{'box': {'x': [0, 2], 'y': [0, 1], 'label': lab}, 'elements': es}]. *)
Definition cavity (lab : option label_value) (es : option (list Element))
  : geometry.Dico float :=
  {| box := Some {| box_x := Some (0, 2)%float;
                    box_y := Some (0, 1)%float;
                    box_z := None;
                    box_label_key := lab |};
     elements := es |}.

(** The geometry the constructor returns on one process, or an empty
    one if it does not return. *)
Definition built (d : geometry.Dico float) : Geometry float :=
  match Geometry_init 1 0 examples.one_process d with
  | Return g => g
  | _ => {| geometry.dim := 0; bounds := []; comm_dims := [];
            comm_coords := []; isInterface := []; list_elem := [];
            box_label := [] |}
  end.

(** The one-dimensional simulation of [toy] in the
    spatial-index-fastest layout, as the constructor has it when it
    calls [initialization], and the buffers at that point. *)
Definition sim1_last : Simulation float toy.field unit :=
  {| simulation.domain := toy.domain 1;
     simulation.scheme := toy.scheme 1 false;
     t := 0%float; nt := 0; dt := (0x1p-8 / 20)%float;
     simulation.dim := 1; nv_on_beg := false;
     _m := 0%nat; _F := 1%nat; _Fold := Some 2%nat; bc := tt |}.

Definition allocated1 : world toy.field :=
  Eval vm_compute in snd (toy.new "moments" 1 false).

(** The simulation of [toy] declared in three dimensions. *)
Definition sim3 : Simulation float toy.field unit :=
  {| simulation.domain := toy.domain 3;
     simulation.scheme := toy.scheme 3 true;
     t := 0%float; nt := 0; dt := (0x1p-8 / 20)%float;
     simulation.dim := 3; nv_on_beg := true;
     _m := 0%nat; _F := 1%nat; _Fold := None; bc := tt |}.

(** A constructor of [Domain] that lacks a key. *)
Definition domain_without_key (d : simulation.Dico float toy.field)
  : outcome (Domain.t float toy.field) := Raise KeyError.

(** A dictionary whose one scheme initialises nothing: its ['init'] is
    the empty dictionary. *)
Definition dico_without_items (inittype : string)
  : simulation.Dico float toy.field :=
  {| inittype := Some inittype;
     schemes := Some [{| init := Some [] |}] |}.

(** The constructor on that dictionary, in one dimension and in the
    spatial-index-fastest layout. *)
Definition new_without_items
  : outcome (Simulation float toy.field unit) * world toy.field :=
  Simulation_init [] toy.no_domain toy.no_scheme toy.boundary
    (dico_without_items "moments")
    (Some (toy.domain 1)) (Some (toy.scheme 1 false)) false toy.nothing.

(** The number of items of the ['init'] dictionaries of the schemes. *)
Definition count_items {R slab : Type} (schs : list (SchemeDico R slab))
  : nat :=
  sum_list ((fun s => length (default [] (init s))) <$> schs).

(** An event of a step: a call of the scheme or a copy. *)
Definition is_call_or_copy (e : event) : bool :=
  match e with
  | Call _ _ | Copy _ _ => true
  | _ => false
  end.

(** From [w] to [w'] no buffer was added or removed, and what was
    logged are calls of the scheme and copies. *)
Definition steps_only {slab : Type} (w w' : world slab) : Prop :=
  length (heap w') = length (heap w) /\
  exists evs, log w' = log w ++ evs /\
              forallb is_call_or_copy evs = true.

End more.


(** * Properties *)

Module geometry_facts.
Import geometry.

(** *** Sorted lists without repeats *)

Lemma insert_unique_elem (a x : Z) (l : list Z) :
  x ∈ insert_unique a l <-> x = a \/ x ∈ l.
Proof.
  induction l as [|b l IH]; simpl.
  - rewrite elem_of_cons. tauto.
  - destruct (Z.ltb_spec a b); [by rewrite elem_of_cons|].
    destruct (Z.eqb_spec a b) as [->|Hne].
    + rewrite elem_of_cons. tauto.
    + rewrite !elem_of_cons, IH. tauto.
Qed.

Lemma insert_unique_sorted (a : Z) (l : list Z) :
  StronglySorted Z.lt l -> StronglySorted Z.lt (insert_unique a l).
Proof.
  induction 1 as [|b l Hs IH Hb]; simpl.
  - repeat constructor.
  - destruct (Z.ltb_spec a b) as [Hlt|Hge].
    + constructor; [by constructor|].
      constructor; [done|].
      eapply Forall_impl; [exact Hb|]. intros; simpl in *; lia.
    + destruct (Z.eqb_spec a b) as [->|Hne]; [by constructor|].
      constructor; [done|].
      apply Forall_forall. intros y Hy.
      apply insert_unique_elem in Hy as [->|Hy]; [lia|].
      by eapply Forall_forall in Hb.
Qed.

Lemma unique_sorted (l : list Z) : StronglySorted Z.lt (unique l).
Proof.
  induction l; simpl; [constructor|by apply insert_unique_sorted].
Qed.

Lemma unique_elem (x : Z) (l : list Z) : x ∈ unique l <-> x ∈ l.
Proof.
  induction l as [|a l IH]; simpl; [done|].
  rewrite insert_unique_elem, IH, elem_of_cons. tauto.
Qed.

Lemma sorted_NoDup (l : list Z) : StronglySorted Z.lt l -> NoDup l.
Proof.
  induction 1 as [|a l Hs IH Ha]; constructor; [|done].
  intros Hin. eapply Forall_forall in Ha; [|exact Hin]. lia.
Qed.

Lemma union1d_elem (x : Z) (a b : list Z) :
  x ∈ union1d a b <-> x ∈ a \/ x ∈ b.
Proof. unfold union1d. by rewrite unique_elem, elem_of_app. Qed.

Lemma union1d_NoDup (a b : list Z) : NoDup (union1d a b).
Proof. apply sorted_NoDup, unique_sorted. Qed.

Lemma fold_union1d_elem (es : list Element) (L : list Z) (x : Z) :
  x ∈ fold_left (fun L elem => union1d L (label elem)) es L
  <-> x ∈ L \/ exists e, e ∈ es /\ x ∈ label e.
Proof.
  revert L. induction es as [|e es IH]; intros L; simpl.
  - split; [tauto|]. intros [?|(e & He & _)]; [done|].
    by apply elem_of_nil in He.
  - rewrite IH, union1d_elem. split.
    + intros [[?|?]|(e' & He' & ?)]; [tauto| |].
      * right. exists e. by rewrite elem_of_cons; auto.
      * right. exists e'. by rewrite elem_of_cons; auto.
    + intros [?|(e' & He' & ?)]; [tauto|].
      apply elem_of_cons in He' as [->|He']; [tauto|].
      right. by exists e'.
Qed.

Lemma fold_union1d_NoDup (es : list Element) (L : list Z) :
  NoDup L -> NoDup (fold_left (fun L elem => union1d L (label elem)) es L).
Proof.
  revert L. induction es as [|e es IH]; intros L HL; simpl; [done|].
  apply IH, union1d_NoDup.
Qed.

Section Generic.
Context {R : Type} `{Num R}.

(** *** [get_box] *)

Lemma get_box_length (d : Dico R) (n : Z) (bs : list (interval R)) :
  get_box d = Return (n, bs) ->
  Z.of_nat (length bs) = n /\ 1 <= n <= 3.
Proof.
  unfold get_box. intros Hg.
  destruct (box d) as [b|]; [|done].
  destruct (box_x b), (box_y b), (box_z b);
    inversion Hg; subst; simpl; lia.
Qed.

Lemma get_box_dim_from_keys_aux (d : Dico R) (b : Box R)
    (bx : interval R) :
  box d = Some b -> box_x b = Some bx ->
  exists n gb, get_box d = Return (n, gb).
Proof.
  intros Hb Hx. unfold get_box. rewrite Hb, Hx.
  destruct (box_y b), (box_z b); eauto.
Qed.

(** *** The cartesian grid *)

Lemma Get_coords_length (dims : list Z) (rank : Z) :
  length (Get_coords dims rank) = length dims.
Proof.
  revert rank. induction dims as [|d dims IH]; intros rank; simpl;
    [done|by rewrite IH].
Qed.

(** Every coordinate lies in its direction of the grid. *)
Lemma Get_coords_range (dims : list Z) (rank : Z) (i : nat) (d c : Z) :
  Forall (fun d => 0 < d) dims ->
  dims !! i = Some d -> Get_coords dims rank !! i = Some c ->
  0 <= c < d.
Proof.
  intros Hpos. revert rank i.
  induction Hpos as [|d' dims Hd' Hpos IH]; intros rank i Hd Hc;
    [done|].
  destruct i as [|i]; simpl in *.
  - inversion Hd; inversion Hc; subst. by apply Z.mod_pos_bound.
  - by eapply IH.
Qed.

(** *** The bounds of a process *)

Lemma local_bounds_lookup (gb : list (interval R)) (split coords : list Z)
    (i : nat) (b : interval R) (s c : Z) :
  gb !! i = Some b -> split !! i = Some s -> coords !! i = Some c ->
  local_bounds gb split coords !! i = Some (local_interval b s c).
Proof.
  intros Hb Hs Hc. unfold local_bounds, local_interval, interval in *.
  repeat (rewrite lookup_zip_with || rewrite list_lookup_fmap).
  by rewrite Hb, Hs, Hc.
Qed.

Lemma local_bounds_length (gb : list (interval R)) (split coords : list Z) :
  length split = length gb -> length coords = length gb ->
  length (local_bounds gb split coords) = length gb.
Proof.
  intros Hs Hc. unfold local_bounds.
  unfold interval in *.
  repeat (rewrite length_zip_with || rewrite length_fmap). lia.
Qed.

(** *** The constructor *)

Lemma Geometry_init_inv size rank Compute_dims (d : Dico R)
    (g : Geometry R) :
  Geometry_init size rank Compute_dims d = Return g ->
  exists n gb,
    get_box d = Return (n, gb) /\
    Z.of_nat (length (Compute_dims size n)) = n /\
    dim g = n /\
    comm_dims g = Compute_dims size n /\
    comm_coords g = Get_coords (Compute_dims size n) rank /\
    bounds g =
      local_bounds gb (Compute_dims size n)
        (Get_coords (Compute_dims size n) rank) /\
    list_elem g = default [] (elements d) /\
    box_label g =
      match default (LabelInt 0) (b ← box d; box_label_key b) with
      | LabelInt l => replicate (Z.to_nat (2 * n)) l
      | LabelList l => l
      end.
Proof.
  unfold Geometry_init. intros Hg.
  destruct (get_box d) as [[n gb]| |] eqn:Hgb; simpl in Hg; [|done..].
  destruct (Z.eqb_spec (Z.of_nat (length (Compute_dims size n))) n)
    as [Hlen|]; simpl in Hg; [|done].
  inversion Hg; subst g; simpl. by exists n, gb.
Qed.

Lemma Geometry_init_returns size rank Compute_dims (d : Dico R) n gb :
  get_box d = Return (n, gb) ->
  Z.of_nat (length (Compute_dims size n)) = n ->
  returns (Geometry_init size rank Compute_dims d) = true.
Proof.
  unfold Geometry_init. intros -> Hlen; simpl.
  apply Z.eqb_eq in Hlen. by rewrite Hlen.
Qed.

(** The bounds the constructor stores. *)
Lemma Geometry_init_bounds size rank Compute_dims (d : Dico R)
    (g : Geometry R) :
  Geometry_init size rank Compute_dims d = Return g ->
  exists n gb,
    get_box d = Return (n, gb) /\
    comm_dims g = Compute_dims size n /\
    comm_coords g = Get_coords (comm_dims g) rank /\
    length (bounds g) = length gb /\
    (forall i b s c,
        gb !! i = Some b -> comm_dims g !! i = Some s ->
        comm_coords g !! i = Some c ->
        let t := div (sub (snd b) (fst b)) (of_int s) in
        bounds g !! i =
          Some (add (fst b) (mul t (of_int c)),
                add (fst b) (mul t (of_int (c + 1))))).
Proof.
  intros Hg.
  destruct (Geometry_init_inv _ _ _ _ _ Hg)
    as (n & gb & Hgb & Hlen & _ & Hdims & Hcoords & Hbounds & _).
  exists n, gb. rewrite Hdims.
  destruct (get_box_length _ _ _ Hgb) as [Hgl _].
  split; [done|]. split; [done|]. split; [done|]. split.
  - rewrite Hbounds. apply local_bounds_length.
    + lia.
    + rewrite Get_coords_length. lia.
  - intros i b s c Hb Hs Hc t. rewrite Hbounds. rewrite Hcoords in Hc.
    exact (local_bounds_lookup _ _ _ _ _ _ _ Hb Hs Hc).
Qed.

End Generic.

(** *** What [get_box] reads *)

(** C9. [get_box] infers the dimension from the keys of the box alone:
    1 with only ['x'], 2 when ['y'] is there too, 3 when ['y'] and ['z']
    both are; the bounds are those of the directions counted.  A ['z']
    without a ['y'] is ignored: the dimension stays 1 and the bounds are
    those of ['x'] only. *)
Theorem get_box_dim_from_keys {R : Type} `{Num R}
    (d : Dico R) (b : Box R) (bx : interval R) :
  box d = Some b -> box_x b = Some bx ->
  get_box d =
    Return
      (match box_y b with
       | None => 1
       | Some _ => match box_z b with None => 2 | Some _ => 3 end
       end,
       bx :: match box_y b with
             | None => []
             | Some boxy =>
                 boxy :: match box_z b with
                         | None => []
                         | Some boxz => [boxz]
                         end
             end)
  /\ (box_y b = None -> get_box d = Return (1, [bx])).
Proof.
  intros Hb Hx. unfold get_box. rewrite Hb, Hx.
  split; [|by intros ->].
  by destruct (box_y b), (box_z b).
Qed.

Lemma get_box_dim_from_keys_witness :
  get_box examples.z_without_y = Return (1, [(0, 1)%float]).
Proof.
  exact (proj2 (get_box_dim_from_keys examples.z_without_y _ _
                  eq_refl eq_refl) eq_refl).
Defined.

(** *** Degenerate boxes *)

(** The claim of C6 fails: the box [{'x': [0, 0]}] has zero extent, and
    the constructor returns a geometry with these bounds. *)
Lemma flat_segment_is_accepted :
  Geometry_init 1 0 examples.one_process examples.flat_segment =
    Return {| dim := 1; bounds := [(0, 0)%float];
              comm_dims := [1]; comm_coords := [0];
              isInterface := [false; false];
              list_elem := []; box_label := [0; 0] |}.
Proof. vm_compute. reflexivity. Qed.

(** C6, amended.  The constructor does not look at the extents.  It ends
    in [sys.exit()] when the ['box'] key or its ['x'] interval is
    missing, an error of [get_box], the first thing it runs; with both
    present it returns a geometry, whatever the bounds are. *)
Theorem Geometry_init_fatal_iff_key_missing {R : Type} `{Num R}
    (size rank : Z) (Compute_dims : Z -> Z -> list Z) (d : Dico R) :
  (forall n, 1 <= n <= 3 -> Z.of_nat (length (Compute_dims size n)) = n) ->
  match b ← box d; box_x b with
  | None =>
      get_box d = Exit /\ Geometry_init size rank Compute_dims d = Exit
  | Some _ =>
      returns (Geometry_init size rank Compute_dims d) = true
  end.
Proof.
  intros Hdims.
  destruct (box d) as [b|] eqn:Hb; simpl.
  - destruct (box_x b) as [bx|] eqn:Hx; simpl.
    + destruct (get_box_dim_from_keys_aux d b bx Hb Hx) as (n & gb & Hg).
      eapply Geometry_init_returns; [exact Hg|].
      apply Hdims. by eapply get_box_length.
    + unfold Geometry_init, get_box. by rewrite Hb, Hx.
  - unfold Geometry_init, get_box. by rewrite Hb.
Qed.

Lemma Geometry_init_fatal_iff_key_missing_witness :
  returns (Geometry_init 1 0 examples.one_process examples.flat_segment)
  = true.
Proof.
  apply (Geometry_init_fatal_iff_key_missing (R := float) 1 0
           examples.one_process examples.flat_segment).
  intros n Hn. unfold examples.one_process.
  rewrite length_replicate. lia.
Defined.

(** *** The sub-box of a process *)


(** The same at the outer face of a tiling: [0, 1] cut in 49 along one
    direction ends, on the last process, just below 1. *)
Lemma last_of_49_bounds_are_rounded :
  exists g,
    Geometry_init 49 48 examples.one_row examples.unit_segment = Return g
    /\ comm_coords g = [48]
    /\ snd <$> bounds g = [0x1.fffffffffffffp-1%float].
Proof. eexists. split; [vm_compute; reflexivity|]. by vm_compute. Qed.



(** Without rounding the formula of C8 tiles the box: the first
    sub-box starts at the global minimum, the last one ends at the
    global maximum, and one process keeps the global box. *)
Lemma exact_tiling_outer_faces (b : interval Q) (s : Z) :
  0 < s ->
  (fst (local_interval b s 0) == fst b)%Q /\
  (snd (local_interval b s (s - 1)) == snd b)%Q.
Proof.
  intros Hs. unfold local_interval; simpl.
  replace (s - 1 + 1) with s by lia.
  assert (~ (inject_Z s == 0)%Q) as Hne.
  { unfold Qeq; simpl. lia. }
  split; [ring|field; exact Hne].
Qed.

Lemma exact_single_process (b : interval Q) :
  (fst (local_interval b 1 0) == fst b)%Q /\
  (snd (local_interval b 1 0) == snd b)%Q.
Proof. apply (exact_tiling_outer_faces b 1). lia. Qed.

(** *** Labels *)

(** The labels of the box edges: 0 on each of the [2 * dim] edges when
    the box has no ['label'], [n] on each of them when it is the
    integer [n], and the list itself, of whatever length, when it is a
    list. *)
Lemma box_label_of_init {R : Type} `{Num R}
    (size rank : Z) (Compute_dims : Z -> Z -> list Z)
    (d : Dico R) (b : Box R) (g : Geometry R) :
  Geometry_init size rank Compute_dims d = Return g ->
  box d = Some b ->
  box_label g =
    match box_label_key b with
    | None => replicate (Z.to_nat (2 * dim g)) 0
    | Some (LabelInt n) => replicate (Z.to_nat (2 * dim g)) n
    | Some (LabelList l) => l
    end.
Proof.
  intros Hg Hb.
  destruct (Geometry_init_inv _ _ _ _ _ Hg)
    as (n & gb & _ & _ & -> & _ & _ & _ & _ & ->).
  rewrite Hb; simpl. by destruct (box_label_key b) as [[]|].
Qed.

(** With at least one element, [list_of_labels] is the union of the
    labels of the box and of the elements, each once. *)
Lemma list_of_labels_with_elements {R : Type} `{Num R} (g : Geometry R) :
  list_elem g <> [] ->
  NoDup (list_of_labels g) /\
  forall x, x ∈ list_of_labels g <->
            x ∈ int32 <$> box_label g \/
            exists e, e ∈ list_elem g /\ x ∈ label e.
Proof.
  intros Hne. unfold list_of_labels. split.
  - destruct (list_elem g) as [|e es]; [done|]. simpl.
    apply fold_union1d_NoDup, union1d_NoDup.
  - intros x. apply fold_union1d_elem.
Qed.

(** Without elements, it is the list of the box labels as stored. *)
Lemma list_of_labels_without_elements {R : Type} `{Num R}
    (g : Geometry R) :
  list_elem g = [] -> list_of_labels g = int32 <$> box_label g.
Proof. unfold list_of_labels. by intros ->. Qed.

(** C10, on the unit square of [test_2D(0)], which has no ['label'] and
    no element: the four edges are labelled 0, and [list_of_labels]
    returns the four labels, the same one four times. *)
Theorem list_of_labels_unit_square :
  exists g,
    Geometry_init 1 0 examples.one_process examples.unit_square = Return g
    /\ box_label g = [0; 0; 0; 0]
    /\ list_of_labels g = [0; 0; 0; 0]
    /\ ~ NoDup (list_of_labels g).
Proof.
  eexists. split; [vm_compute; reflexivity|]. simpl.
  split; [done|]. split; [done|].
  vm_compute. intros Hnd. apply NoDup_cons in Hnd as [Hnotin _].
  apply Hnotin. by left.
Qed.

End geometry_facts.

Module simulation_facts.
Import simulation.

Section Generic.
Context {R : Type} `{Num R} {slab Boundary : Type}.
Implicit Types (self : Simulation R slab Boundary) (w : world slab).

(** *** One step, moment index first *)

(** *** Running a computation *)

Lemma mbind_Return {A B} (c : M slab A) (k : A -> M slab B) w a w1 :
  c w = (Return a, w1) -> mbind c k w = k a w1.
Proof. unfold mbind. by intros ->. Qed.

Lemma mbind_inv {A B} (c : M slab A) (k : A -> M slab B) w b w2 :
  mbind c k w = (Return b, w2) ->
  exists a w1, c w = (Return a, w1) /\ k a w1 = (Return b, w2).
Proof.
  unfold mbind. destruct (c w) as [[a| |e] w1]; [eauto|done..].
Qed.

Lemma lift_inv {A} (c : outcome A) w a w1 :
  lift c w = (Return a, w1) -> c = Return a /\ w1 = w.
Proof. unfold lift. by intros [= -> ->]. Qed.

(** *** One step, moment index first *)

Lemma one_time_step_nv_on_beg self w :
  nv_on_beg self = true ->
  exists h,
    one_time_step self w =
      (Return (advance_clock self),
       {| heap := h; log := log w ++ step_events self |})
    /\ (_m self <> _F self ->
        (_m self < length (heap w))%nat ->
        (_F self < length (heap w))%nat ->
        h !!! _m self
          = fst (step_result self (heap w !!! _F self)
                                  (heap w !!! _m self)) /\
        h !!! _F self
          = snd (step_result self (heap w !!! _F self)
                                  (heap w !!! _m self)) /\
        forall l, l <> _m self -> l <> _F self ->
                  h !!! l = heap w !!! l).
Proof.
  intros Hnv. unfold one_time_step. rewrite Hnv.
  unfold call1, call2, mbind, emit, read, write, ret; simpl.
  eexists. split.
  { rewrite <- !app_assoc. simpl. reflexivity. }
  intros Hne Hm HF. unfold step_result. rewrite Hnv.
  repeat first
    [ rewrite list_lookup_total_insert_eq by (rewrite ?length_insert; lia)
    | rewrite list_lookup_total_insert_ne by congruence ].
  split; [done|]. split; [done|].
  intros l Hlm HlF.
  by rewrite !list_lookup_total_insert_ne by congruence.
Qed.

(** *** The effect of the primitive steps *)

Lemma call1_run f k a w :
  call1 f k a w =
    (Return tt,
     {| heap := <[a := k (heap w !!! a)]> (heap w);
        log := log w ++ [Call f [a]] |}).
Proof. reflexivity. Qed.

Lemma call2_run f k a b w :
  call2 f k a b w =
    (Return tt,
     {| heap := <[b := snd (k (heap w !!! a) (heap w !!! b))]>
                  (<[a := fst (k (heap w !!! a) (heap w !!! b))]>
                     (heap w));
        log := log w ++ [Call f [a; b]] |}).
Proof. reflexivity. Qed.

Lemma call3_run f k a b c w :
  call3 f k a b c w =
    (Return tt,
     let r := k (heap w !!! a) (heap w !!! b) (heap w !!! c) in
     {| heap := <[c := snd r]>
                  (<[b := snd (fst r)]>
                     (<[a := fst (fst r)]> (heap w)));
        log := log w ++ [Call f [a; b; c]] |}).
Proof. reflexivity. Qed.

Lemma copy_buffer_inv dst src w u w' :
  copy_buffer dst src w = (Return u, w') ->
  exists d,
    dst = Some d /\
    shape (heap w !!! src) = shape (heap w !!! d) /\
    w' = {| heap := <[d := {| shape := shape (heap w !!! d);
                              slots := slots (heap w !!! src) |}]>
                      (heap w);
            log := log w ++ [Copy d src] |}.
Proof.
  unfold copy_buffer. destruct dst as [d|]; [|done].
  unfold mbind, read, write, emit, lift; simpl.
  case_bool_decide as Hshape; [|done].
  intros [= <- <-]. by exists d.
Qed.

(** *** One step, moment index last *)

(** The step in the spatial-index-fastest layout: the boundary
    conditions on [F], the copy of [F] into [_Fold], the fused kernel
    on [m], [F] and [_Fold], and the exchange of the two names.  The
    kernel finds in [_Fold] the slots of [F]. *)
Lemma one_time_step_swap self w self' w' :
  nv_on_beg self = false ->
  one_time_step self w = (Return self', w') ->
  exists ftmp wmid,
    _Fold self = Some ftmp /\
    self' = advance_clock (swap_buffers self ftmp) /\
    log w' = log w ++ swap_step_events self ftmp /\
    ((ftmp < length (heap w))%nat ->
     slots (heap wmid !!! ftmp) = slots (heap wmid !!! _F self)) /\
    call3 Onetimestep
      (fun m F Fold =>
         Scheme.onetimestep (scheme self) m F Fold
           (Domain.in_or_out (domain self))
           (Domain.valin (domain self)))
      (_m self) (_F self) ftmp wmid
    = (Return tt, w').
Proof.
  intros Hnv Hstep. unfold one_time_step in Hstep. rewrite Hnv in Hstep.
  apply mbind_inv in Hstep as (u & w1 & Hbc & Hstep).
  rewrite call2_run in Hbc. injection Hbc as _ <-.
  apply mbind_inv in Hstep as (self1 & w2 & Hstep & Hclock).
  injection Hclock as <- <-.
  apply mbind_inv in Hstep as (u1 & w3 & Hcopy & Hstep).
  apply copy_buffer_inv in Hcopy as (ftmp & HFold & Hshape & ->).
  rewrite HFold in Hstep.
  apply mbind_inv in Hstep as (l & w4 & Hl & Hstep).
  apply lift_inv in Hl as [[= <-] ->].
  apply mbind_inv in Hstep as (u2 & w5 & Hcall & Hret).
  injection Hret as <- <-. destruct u2.
  eexists ftmp, _. split; [done|]. split; [done|].
  split; [|split; [|exact Hcall]].
  - rewrite call3_run in Hcall. injection Hcall as <-. simpl.
    by rewrite <- !app_assoc.
  - intros Hlt. simpl.
    rewrite list_lookup_total_insert_eq
      by (rewrite ?length_insert; lia).
    simpl. destruct (decide (ftmp = _F self)) as [->|Hne].
    + rewrite list_lookup_total_insert_eq
        by (rewrite ?length_insert; lia). done.
    + by rewrite (list_lookup_total_insert_ne _ ftmp) by done.
Qed.

(** *** [initialization] and the setters leave the object as it is *)

Lemma initialization_self self dico w self' w' :
  initialization self dico w = (Return self', w') -> self' = self.
Proof.
  unfold initialization. intros Hinit.
  repeat (apply mbind_inv in Hinit as (? & ? & _ & Hinit)).
  by injection Hinit as <- _.
Qed.

Lemma m_setter_self self i j v w self' w' :
  m_setter self i j v w = (Return self', w') -> self' = self.
Proof.
  unfold m_setter. intros Hset.
  repeat (apply mbind_inv in Hset as (? & ? & _ & Hset)).
  by injection Hset as <- _.
Qed.

Lemma F_setter_self self i j v w self' w' :
  F_setter self i j v w = (Return self', w') -> self' = self.
Proof.
  unfold F_setter. intros Hset.
  repeat (apply mbind_inv in Hset as (? & ? & _ & Hset)).
  by injection Hset as <- _.
Qed.

(** *** The constructor, read backwards *)

Section Constructor.
Variable junk : slab.
Variable Domain_new : Dico R slab -> outcome (Domain.t R slab).
Variable Scheme_new :
  Dico R slab -> bool -> outcome (Scheme.t R slab Boundary).
Variable Boundary_new :
  Domain.t R slab -> Dico R slab -> outcome Boundary.

Lemma Simulation_init_inv dico dom sch nvb w self w' :
  Simulation_init junk Domain_new Scheme_new Boundary_new
    dico dom sch nvb w = (Return self, w') ->
  exists nvtot w1,
    exit_on_KeyError
      (match dom with Some d => Return d | None => Domain_new dico end)
      = Return (domain self) /\
    exit_on_KeyError
      (match sch with
       | Some s => Return s
       | None => Scheme_new dico nvb
       end) = Return (scheme self) /\
    t self = of_int 0 /\ nt self = 0 /\
    truediv (Domain.dx (domain self)) (Scheme.la (scheme self))
      = Return (dt self) /\
    Domain.dim (domain self) = Scheme.dim (scheme self) /\
    dim self = Domain.dim (domain self) /\
    nv_on_beg self = Scheme.nv_on_beg (scheme self) /\
    Py.index (Stencil.nv_ptr (Scheme.stencil (scheme self))) (-1)
      = Return nvtot /\
    allocate junk (nv_on_beg self) nvtot (Domain.Na (domain self)) w
      = (Return (_m self, _F self, _Fold self), w1) /\
    Boundary_new (domain self) dico = Return (bc self) /\
    initialization self dico w1 = (Return self, w').
Proof.
  unfold Simulation_init. intros Hinit.
  apply mbind_inv in Hinit as (d & w0 & Hd & Hinit).
  apply lift_inv in Hd as [Hd ->].
  apply mbind_inv in Hinit as (s & w0 & Hs & Hinit).
  apply lift_inv in Hs as [Hs ->].
  apply mbind_inv in Hinit as (dt0 & w0 & Hdt & Hinit).
  apply lift_inv in Hdt as [Hdt ->].
  destruct (Z.eqb_spec (Domain.dim d) (Scheme.dim s)) as [Hdim|];
    [|done]. simpl in Hinit.
  apply mbind_inv in Hinit as (nvtot & w0 & Hnv & Hinit).
  apply lift_inv in Hnv as [Hnv ->].
  apply mbind_inv in Hinit as ([[lm lF] lFold] & w1 & Halloc & Hinit).
  apply mbind_inv in Hinit as (bc0 & w0 & Hbc & Hinit).
  apply lift_inv in Hbc as [Hbc ->].
  pose proof (initialization_self _ _ _ _ _ Hinit) as ->.
  by exists nvtot, w1.
Qed.

End Constructor.

(** *** Assigning a slot *)

Lemma norm_index_range (n i k : Z) :
  Py.norm_index n i = Some k -> 0 <= k < n.
Proof.
  unfold Py.norm_index.
  destruct (Z.leb_spec 0 i), (Z.ltb_spec i n); simpl;
    try (intros [= <-]; lia);
    destruct (Z.leb_spec (- n) i), (Z.ltb_spec i 0); simpl;
    try done; intros [= <-]; lia.
Qed.

Lemma slot_of_lt self (a : ndarray slab) (idx : Z) (k : nat) :
  slot_of self a idx = Return k -> (k < length (slots a))%nat.
Proof.
  unfold slot_of.
  destruct (Py.norm_index _ idx) as [k'|] eqn:Hk.
  - apply norm_index_range in Hk.
    destruct (nv_on_beg self); [intros [= <-]; lia|].
    destruct (Nat.compare _ 3); try done. intros [= <-]; lia.
  - destruct (nv_on_beg self); [done|].
    by destruct (Nat.compare _ 3).
Qed.

Lemma slot_of_same self (a a' : ndarray slab) (idx : Z) :
  shape a' = shape a -> length (slots a') = length (slots a) ->
  slot_of self a' idx = slot_of self a idx.
Proof. unfold slot_of. by intros -> ->. Qed.

(** A location outside the heap reads as the empty array. *)
Lemma lookup_total_outside (h : list (ndarray slab)) (l : loc) :
  (length h <= l)%nat -> slots (h !!! l) = [].
Proof.
  intros Hl. rewrite list_lookup_total_alt.
  by rewrite (lookup_ge_None_2 h l Hl).
Qed.

Lemma store_slot_inv self buf idx v w u w' :
  store_slot self buf idx v w = (Return u, w') ->
  exists k,
    slot_of self (heap w !!! buf) idx = Return k /\
    (buf < length (heap w))%nat /\
    w' = {| heap := <[buf := {| shape := shape (heap w !!! buf);
                                slots := <[k := v]>
                                           (slots (heap w !!! buf)) |}]>
                      (heap w);
            log := log w ++ [Store buf k] |}.
Proof.
  unfold store_slot. intros Hstore.
  apply mbind_inv in Hstore as (a & w1 & Hread & Hstore).
  injection Hread as <- <-.
  apply mbind_inv in Hstore as (k & w1 & Hk & Hstore).
  apply lift_inv in Hk as [Hk ->].
  apply mbind_inv in Hstore as (u1 & w1 & Hwrite & Hemit).
  injection Hwrite as _ <-. injection Hemit as _ <-.
  exists k. split; [done|]. split; [|done].
  apply slot_of_lt in Hk.
  destruct (decide (buf < length (heap w))%nat) as [|Hge]; [done|].
  rewrite lookup_total_outside in Hk by lia. simpl in Hk. lia.
Qed.

(** *** The loops of [initialization] *)

Lemma fills_refl buf w : fills buf w w.
Proof.
  split; [|done]. exists []. by rewrite app_nil_r.
Qed.

Lemma fills_trans buf w1 w2 w3 :
  fills buf w1 w2 -> fills buf w2 w3 -> fills buf w1 w3.
Proof.
  intros ((s1 & Hl1 & Hs1) & Hh1 & Hn1 & Hsh1)
         ((s2 & Hl2 & Hs2) & Hh2 & Hn2 & Hsh2).
  split; [|split; [|split]].
  - exists (s1 ++ s2). rewrite Hl2, Hl1, app_assoc.
    split; [done|]. by apply Forall_app.
  - intros l Hl. by rewrite Hh2, Hh1.
  - congruence.
  - congruence.
Qed.

Lemma for_each_fills {A} (body : A -> M slab unit) buf :
  (forall a w u w', body a w = (Return u, w') -> fills buf w w') ->
  forall l w u w',
    for_each body l w = (Return u, w') -> fills buf w w'.
Proof.
  intros Hbody l. induction l as [|a l IH]; intros w u w' Hrun.
  - injection Hrun as _ <-. apply fills_refl.
  - simpl in Hrun. apply mbind_inv in Hrun as (u1 & w1 & Ha & Hrun).
    eapply fills_trans; [by eapply Hbody|by eapply IH].
Qed.

Lemma store_slot_fills self buf idx v w u w' :
  store_slot self buf idx v w = (Return u, w') -> fills buf w w'.
Proof.
  unfold store_slot. intros Hstore.
  apply mbind_inv in Hstore as (a & w1 & Hread & Hstore).
  injection Hread as <- <-.
  apply mbind_inv in Hstore as (k & w1 & Hk & Hstore).
  apply lift_inv in Hk as [Hk ->].
  apply mbind_inv in Hstore as (u1 & w1 & Hwrite & Hemit).
  injection Hwrite as _ <-. injection Hemit as _ <-. simpl.
  split; [|split; [|split]]; simpl.
  - exists [Store buf k]. split; [done|].
    constructor; [|done]. simpl. by rewrite Nat.eqb_refl.
  - intros l Hl. by rewrite list_lookup_total_insert_ne.
  - by rewrite length_insert.
  - destruct (decide (buf < length (heap w))%nat) as [Hlt|Hge].
    + by rewrite list_lookup_total_insert_eq.
    + by rewrite list_insert_ge by lia.
Qed.

Lemma fill_item_fills self moments coords ns kv w u w' :
  fill_item self moments coords ns kv w = (Return u, w') ->
  fills (init_target self moments) w w'.
Proof.
  unfold fill_item. intros Hfill.
  apply mbind_inv in Hfill as (fargs & w1 & Hargs & Hfill).
  apply lift_inv in Hargs as [_ ->].
  apply mbind_inv in Hfill as (base & w1 & Hbase & Hfill).
  apply lift_inv in Hbase as [_ ->].
  by eapply store_slot_fills.
Qed.

Lemma fill_scheme_fills self moments coords nss w u w' :
  fill_scheme self moments coords nss w = (Return u, w') ->
  fills (init_target self moments) w w'.
Proof.
  unfold fill_scheme. intros Hfill.
  apply mbind_inv in Hfill as (items & w1 & Hitems & Hfill).
  apply lift_inv in Hitems as [_ ->].
  eapply for_each_fills; [|exact Hfill].
  intros. by eapply fill_item_fills.
Qed.

Lemma close_initialization_log self moments w :
  exists h,
    close_initialization self moments w =
      (Return tt,
       {| heap := h;
          log := log w ++
            if moments
            then [Call Equilibrium [_m self];
                  Call M2f [_m self; _F self]]
            else [Call F2m [_F self; _m self]] |}).
Proof.
  unfold close_initialization. destruct moments.
  - unfold mbind. rewrite call1_run, call2_run. simpl.
    eexists. by rewrite <- app_assoc.
  - rewrite call2_run. by eexists.
Qed.

(** [initialization]: the initialisation functions fill one buffer,
    [m] when [inittype] is ['moments'] and [F] otherwise, and then
    the other buffer is computed from it. *)
Lemma initialization_log self dico w self' w' :
  initialization self dico w = (Return self', w') ->
  exists ity w1,
    inittype dico = Some ity /\
    fills (init_target self (String.eqb ity "moments")) w w1 /\
    log w' = log w1 ++ closing_events self (String.eqb ity "moments").
Proof.
  unfold initialization. intros Hinit.
  apply mbind_inv in Hinit as (ity & w0 & Hity & Hinit).
  apply lift_inv in Hity as [Hity ->].
  apply mbind_inv in Hinit as (coords & w0 & Hc & Hinit).
  apply lift_inv in Hc as [_ ->].
  apply mbind_inv in Hinit as (schs & w0 & Hs & Hinit).
  apply lift_inv in Hs as [_ ->].
  apply mbind_inv in Hinit as (u & w1 & Hfill & Hinit).
  apply mbind_inv in Hinit as (u1 & w2 & Hclose & Hinit).
  apply mbind_inv in Hinit as (u2 & w3 & Hcopy & Hret).
  injection Hret as _ <-.
  exists ity, w1. split.
  { unfold key in Hity. by destruct (inittype dico); inversion Hity. }
  split.
  { eapply for_each_fills; [|exact Hfill].
    intros. by eapply fill_scheme_fills. }
  destruct (close_initialization_log self (String.eqb ity "moments") w1)
    as (h & Hclose').
  rewrite Hclose' in Hclose. injection Hclose as _ <-.
  unfold closing_events. destruct (nv_on_beg self); simpl in *.
  - injection Hcopy as _ <-. simpl. by rewrite app_nil_r.
  - apply copy_buffer_inv in Hcopy as (d & -> & _ & ->). simpl.
    by rewrite <- app_assoc.
Qed.

(** *** What [initialization] leaves in the buffers *)

Lemma fold_assign_same (stores : list (nat * slab)) (a : ndarray slab) :
  shape (fold_left assign stores a) = shape a /\
  length (slots (fold_left assign stores a)) = length (slots a).
Proof.
  revert a. induction stores as [|st stores IH]; intros a; simpl; [done|].
  destruct (IH (assign a st)) as [-> ->]. simpl.
  by rewrite length_insert.
Qed.

Lemma stores_into_nil buf w : stores_into buf [] w w.
Proof.
  split; [|split; [|done]]; simpl.
  - destruct (decide (buf < length (heap w))%nat).
    + symmetry. apply list_insert_id.
      by apply list_lookup_lookup_total_lt.
    + by rewrite list_insert_ge by lia.
  - by rewrite app_nil_r.
Qed.

Lemma stores_into_same buf stores w w' :
  stores_into buf stores w w' ->
  shape (heap w' !!! buf) = shape (heap w !!! buf) /\
  length (slots (heap w' !!! buf)) = length (slots (heap w !!! buf)) /\
  length (heap w') = length (heap w) /\
  forall l, l <> buf -> heap w' !!! l = heap w !!! l.
Proof.
  intros (Hh & _ & _). rewrite Hh.
  destruct (decide (buf < length (heap w))%nat).
  - rewrite list_lookup_total_insert_eq by done.
    destruct (fold_assign_same stores (heap w !!! buf)) as [-> ->].
    rewrite length_insert. repeat split; try done.
    intros. by rewrite list_lookup_total_insert_ne.
  - by rewrite list_insert_ge by lia.
Qed.

Lemma stores_into_app buf s1 s2 w1 w2 w3 :
  stores_into buf s1 w1 w2 -> stores_into buf s2 w2 w3 ->
  stores_into buf (s1 ++ s2) w1 w3.
Proof.
  intros (Hh1 & Hl1 & Hb1) (Hh2 & Hl2 & Hb2).
  assert (length (heap w2) = length (heap w1)) as Hlen
    by (rewrite Hh1; apply length_insert).
  split; [|split].
  - rewrite Hh2, fold_left_app.
    destruct (decide (buf < length (heap w1))%nat).
    + rewrite Hh1. rewrite list_lookup_total_insert_eq by done.
      by rewrite list_insert_insert_eq.
    + rewrite (list_insert_ge (heap w2)) by lia.
      rewrite Hh1. by rewrite !list_insert_ge by lia.
  - by rewrite Hl2, Hl1, fmap_app, app_assoc.
  - intros Hne. destruct s1 as [|st s1]; [|by apply Hb1].
    rewrite <- Hlen. by apply Hb2.
Qed.

Lemma assigned_same self (a a' : ndarray slab) coords item :
  shape a' = shape a -> length (slots a') = length (slots a) ->
  assigned self a' coords item = assigned self a coords item.
Proof.
  intros Hshape Hlen. unfold assigned.
  destruct coords as [c|]; [|done]. simpl.
  destruct (nv_ptr_at self (fst item)) as [base| |]; [|done..]. simpl.
  by rewrite (slot_of_same self a a') by done.
Qed.

Lemma fill_item_run self moments coords ns kv w u w' :
  fill_item self moments coords ns kv w = (Return u, w') ->
  exists st,
    assigned self (heap w !!! init_target self moments) coords (ns, kv)
    = Return st /\
    stores_into (init_target self moments) [st] w w'.
Proof.
  unfold fill_item. intros Hfill.
  apply mbind_inv in Hfill as (fargs & w1 & Hargs & Hfill).
  apply lift_inv in Hargs as [Hargs ->].
  apply mbind_inv in Hfill as (base & w1 & Hbase & Hfill).
  apply lift_inv in Hbase as [Hbase ->].
  apply store_slot_inv in Hfill as (k & Hk & Hbuf & ->).
  exists (k, init_fun (snd kv) fargs). split.
  - unfold assigned. simpl. rewrite Hargs. simpl.
    rewrite Hbase. simpl. by rewrite Hk.
  - by repeat split.
Qed.

Lemma for_each_stores {A} (body : A -> M slab unit)
    (items : A -> list (Z * (Z * init_value R slab))) self buf coords :
  (forall a w u w',
      body a w = (Return u, w') ->
      exists stores,
        Forall2 (fun item st =>
                   assigned self (heap w !!! buf) coords item = Return st)
                (items a) stores /\
        stores_into buf stores w w') ->
  forall l w u w',
    for_each body l w = (Return u, w') ->
    exists stores,
      Forall2 (fun item st =>
                 assigned self (heap w !!! buf) coords item = Return st)
              (flat_map items l) stores /\
      stores_into buf stores w w'.
Proof.
  intros Hbody l. induction l as [|a l IH]; intros w u w' Hrun.
  - injection Hrun as _ <-. exists []. split; [constructor|].
    apply stores_into_nil.
  - simpl in Hrun. apply mbind_inv in Hrun as (u1 & w1 & Ha & Hrun).
    destruct (Hbody _ _ _ _ Ha) as (s1 & Hs1 & Hinto1).
    destruct (IH _ _ _ Hrun) as (s2 & Hs2 & Hinto2).
    destruct (stores_into_same _ _ _ _ Hinto1) as (Hshape & Hlen & _).
    exists (s1 ++ s2). split; [|by eapply stores_into_app].
    simpl. apply Forall2_app; [done|].
    eapply Forall2_impl; [exact Hs2|]. intros item st <-.
    symmetry. by apply assigned_same.
Qed.

Lemma fill_scheme_run self moments coords
    (nss : Z * SchemeDico R slab) w u w' :
  fill_scheme self moments coords nss w = (Return u, w') ->
  exists stores,
    Forall2 (fun item st =>
               assigned self (heap w !!! init_target self moments)
                        coords item = Return st)
            ((fun kv => (fst nss, kv)) <$> default [] (init (snd nss)))
            stores /\
    stores_into (init_target self moments) stores w w'.
Proof.
  unfold fill_scheme. intros Hfill.
  apply mbind_inv in Hfill as (items & w1 & Hitems & Hfill).
  apply lift_inv in Hitems as [Hitems ->].
  unfold key in Hitems.
  destruct (init (snd nss)) as [items'|]; [|done].
  injection Hitems as ->. simpl.
  destruct (for_each_stores (fill_item self moments coords (fst nss))
              (fun kv => [(fst nss, kv)]) self
              (init_target self moments) coords) with
    (l := items) (w := w) (u := u) (w' := w')
    as (stores & Hall & Hinto); [|done|].
  { intros kv w0 u0 w0' Hkv.
    destruct (fill_item_run _ _ _ _ _ _ _ _ Hkv) as (st & Hst & Hinto).
    exists [st]. split; [|done]. by repeat constructor. }
  exists stores. split; [|done].
  replace ((fun kv => (fst nss, kv)) <$> items)
    with (flat_map (fun kv => [(fst nss, kv)]) items); [done|].
  clear. induction items as [|kv items IH]; simpl; [done|].
  by rewrite IH.
Qed.

(** [initialization], step by step: the assignments of the two loops,
    the calls that close it, and the copy into [_Fold]. *)
Lemma initialization_run self dico w self' w' :
  initialization self dico w = (Return self', w') ->
  exists ity schs coords stores w2 w3,
    inittype dico = Some ity /\
    schemes dico = Some schs /\
    coords_of self = Return coords /\
    Forall2 (fun item st =>
               assigned self
                 (heap w !!! init_target self (String.eqb ity "moments"))
                 coords item = Return st)
            (init_items schs) stores /\
    stores_into (init_target self (String.eqb ity "moments")) stores w w2 /\
    close_initialization self (String.eqb ity "moments") w2
    = (Return tt, w3) /\
    (if nv_on_beg self then w' = w3
     else copy_buffer (_Fold self) (_F self) w3 = (Return tt, w')).
Proof.
  unfold initialization. intros Hinit.
  apply mbind_inv in Hinit as (ity & w0 & Hity & Hinit).
  apply lift_inv in Hity as [Hity ->].
  apply mbind_inv in Hinit as (coords & w0 & Hc & Hinit).
  apply lift_inv in Hc as [Hc ->].
  apply mbind_inv in Hinit as (schs & w0 & Hs & Hinit).
  apply lift_inv in Hs as [Hs ->].
  apply mbind_inv in Hinit as (u & w2 & Hfill & Hinit).
  apply mbind_inv in Hinit as (u1 & w3 & Hclose & Hinit).
  apply mbind_inv in Hinit as (u2 & w4 & Hcopy & Hret).
  injection Hret as _ <-. destruct u1, u2.
  destruct (for_each_stores _ _ self _ coords
              (fill_scheme_run self (String.eqb ity "moments") coords)
              _ _ _ _ Hfill) as (stores & Hall & Hinto).
  exists ity, schs, coords, stores, w2, w3.
  unfold key in Hity, Hs.
  destruct (inittype dico); [|done]. injection Hity as ->.
  destruct (schemes dico); [|done]. injection Hs as ->.
  do 6 (split; [done|]).
  destruct (nv_on_beg self); simpl in Hcopy; [|done].
  by injection Hcopy.
Qed.

(** *** The buffers of the constructor *)

Lemma allocate_inv junk nvb nvtot Na w lm lF lFold w1 :
  allocate junk nvb nvtot Na w = (Return (lm, lF, lFold), w1) ->
  let msize := if nvb then [nvtot] ++ reverse Na
               else reverse Na ++ [nvtot] in
  let fresh := {| shape := msize;
                  slots := replicate (Z.to_nat nvtot) junk |} in
  lm = length (heap w) /\ lF = S lm /\
  lFold = (if nvb then None else Some (S (S lm))) /\
  heap w1 = heap w ++ replicate (if nvb then 2 else 3)%nat fresh /\
  log w1 = log w ++ Alloc lm msize :: Alloc lF msize ::
             (if nvb then [] else [Alloc (S (S lm)) msize]).
Proof.
  unfold allocate, np_empty, mbind, ret.
  destruct nvb; cbv zeta;
    (destruct (forallb (Z.leb 0) _); [|done]);
    cbn -[forallb reverse app replicate];
    intros [= <- <- <- <-];
    rewrite ?length_app, <- ?app_assoc; simpl;
    repeat split; try done; repeat f_equal; lia.
Qed.

(** *** The clock *)

Lemma one_time_step_clock self w self' w' :
  one_time_step self w = (Return self', w') ->
  t self' = add (t self) (dt self) /\
  nt self' = nt self + 1 /\
  dt self' = dt self.
Proof.
  intros Hstep. destruct (nv_on_beg self) eqn:Hnv.
  - destruct (one_time_step_nv_on_beg self w Hnv) as (h & Heq & _).
    rewrite Heq in Hstep. by inversion Hstep.
  - destruct (one_time_step_swap _ _ _ _ Hnv Hstep)
      as (ftmp & wmid & _ & -> & _).
    done.
Qed.

Lemma run_clock (n : nat) self w self' w' :
  run n self w = (Return self', w') ->
  t self' = accumulate n (dt self) (t self) /\
  nt self' = nt self + Z.of_nat n /\
  dt self' = dt self.
Proof.
  revert self w. induction n as [|n IH]; intros self w Hrun.
  - inversion Hrun; subst. simpl. split; [done|]. split; [lia|done].
  - simpl in Hrun. apply mbind_inv in Hrun as (s1 & w1 & Hstep & Hrun).
    apply one_time_step_clock in Hstep as (Ht & Hnt & Hdt).
    apply IH in Hrun as (Ht' & Hnt' & Hdt').
    simpl. rewrite Ht', Hnt', Hdt', Ht, Hnt, Hdt.
    split; [done|]. split; [lia|done].
Qed.

(** In the moment-index-fastest layout a run never stops. *)
Lemma run_returns (n : nat) self w :
  nv_on_beg self = true ->
  exists self' w', run n self w = (Return self', w').
Proof.
  revert self w. induction n as [|n IH]; intros self w Hnv; simpl.
  - by eexists _, _.
  - destruct (one_time_step_nv_on_beg self w Hnv) as (h & Heq & _).
    erewrite mbind_Return by exact Heq. by apply IH.
Qed.

(** *** The accessors *)

(** With an integer [j], [m[i][j]] is the slot [nv_ptr[i] + j] of the
    moment buffer, counted from the end when negative. *)
Lemma m_Int self i j w base k :
  nv_on_beg self = true ->
  nv_ptr_at self i = Return base ->
  Py.norm_index (Z.of_nat (length (slots (heap w !!! _m self))))
                (base + j) = Some k ->
  m self i (Int j) w = (Return (SlotView (_m self) (Z.to_nat k)), w).
Proof.
  intros Hnv Hbase Hk. unfold m, mbind, lift, read, ret, slot_of.
  by rewrite Hbase, Hnv, Hk.
Qed.

Lemma F_Int self i j w base k :
  nv_on_beg self = true ->
  nv_ptr_at self i = Return base ->
  Py.norm_index (Z.of_nat (length (slots (heap w !!! _F self))))
                (base + j) = Some k ->
  F self i (Int j) w = (Return (SlotView (_F self) (Z.to_nat k)), w).
Proof.
  intros Hnv Hbase Hk.
  unfold F, offset, mbind, lift, read, ret, slot_of.
  rewrite Hbase. simpl. by rewrite Hnv, Hk.
Qed.

(** The view is live: it shows what the buffer holds when it is
    read, for instance a later assignment to the slot. *)
Lemma SlotView_live (h : list (ndarray slab)) buf k a v :
  (buf < length h)%nat -> (k < length (slots a))%nat ->
  view_read (<[buf := {| shape := shape a;
                         slots := <[k := v]> (slots a) |}]> h)
            (SlotView buf k) = [v].
Proof.
  intros Hbuf Hk. simpl.
  rewrite list_lookup_total_insert_eq by done. simpl.
  by rewrite list_lookup_insert_eq.
Qed.

(** With a slice whose stop is left out, [m[i][j]] stops before the
    slot [nv_ptr[i] + nv[i] - 1]. *)
Lemma m_Slice_open self i start step w base n :
  nv_on_beg self = true ->
  nv_ptr_at self i = Return base ->
  Py.index (Stencil.nv (Scheme.stencil (scheme self))) i = Return n ->
  m self i (Slice {| start := start; stop := None; step := step |}) w =
    (let '(first, count) :=
       Py.slice_range (Z.of_nat (length (slots (heap w !!! _m self))))
         (base + default 0 start) (base + (n - 1)) in
     Return (RangeView (_m self) first count), w).
Proof.
  intros Hnv Hbase Hn. unfold m, mbind, lift, read, ret, range_of.
  simpl. rewrite Hn, Hbase. simpl. rewrite Hnv. reflexivity.
Qed.

(** For a scheme whose [nv[i]] slots are in the buffer, [m[i][:]] is
    a window of [nv[i] - 1] slots: the last one is not in it. *)
Lemma m_Slice_all_misses_last self i w base n :
  nv_on_beg self = true ->
  nv_ptr_at self i = Return base ->
  Py.index (Stencil.nv (Scheme.stencil (scheme self))) i = Return n ->
  0 <= base -> 1 <= n ->
  base + n <= Z.of_nat (length (slots (heap w !!! _m self))) ->
  m self i (Slice {| start := None; stop := None; step := None |}) w =
    (Return (RangeView (_m self) (Z.to_nat base) (Z.to_nat (n - 1))), w).
Proof.
  intros Hnv Hbase Hn Hb0 Hn1 Hlen.
  rewrite (m_Slice_open _ _ _ _ _ _ _ Hnv Hbase Hn).
  unfold Py.slice_range, Py.clip. simpl.
  rewrite Z.add_0_r.
  destruct (Z.ltb_spec base 0); [lia|].
  destruct (Z.ltb_spec (base + (n - 1)) 0); [lia|].
  set (len := Z.of_nat (length (slots (heap w !!! _m self)))) in *.
  replace (0 `max` (len `min` base)) with base by lia.
  replace (0 `max` (len `min` (base + (n - 1)))) with (base + (n - 1))
    by lia.
  by replace (base + (n - 1) - base) with (n - 1) by lia.
Qed.

(** [F[i][j]] has no case for a slice: [nv_ptr[i] + j] is a
    [TypeError]. *)
Lemma F_Slice self i j w base :
  nv_ptr_at self i = Return base ->
  F self i (Slice j) w = (Raise TypeError, w).
Proof.
  intros Hbase. unfold F, offset, mbind, lift. by rewrite Hbase.
Qed.

(** *** The claims on a step *)

(** C1. In the moment-index-fastest layout a call of [one_time_step]
    returns, and what it does to the buffers is, in this order:
    [set_boundary_conditions] on [F] (which also receives [m]),
    [transport] on [F], [f2m] from [F] to [m], [relaxation] on [m],
    [m2f] from [m] to [F].  [set_boundary_conditions] is called once,
    and it is the call before [transport].  When [_m] and [_F] are
    two buffers of the heap, their contents after the step are those
    kernels applied in that order, and no other buffer changes. *)
Theorem one_time_step_sequence self w :
  nv_on_beg self = true ->
  exists w',
    one_time_step self w = (Return (advance_clock self), w') /\
    log w' = log w ++
      [Call SetBoundaryConditions [_F self; _m self];
       Call Transport [_F self];
       Call F2m [_F self; _m self];
       Call Relaxation [_m self];
       Call M2f [_m self; _F self]] /\
    length (filter (fun e => is_call SetBoundaryConditions e)
                   (drop (length (log w)) (log w'))) = 1%nat /\
    (_m self <> _F self ->
     (_m self < length (heap w))%nat ->
     (_F self < length (heap w))%nat ->
     heap w' !!! _m self
       = fst (step_result self (heap w !!! _F self)
                               (heap w !!! _m self)) /\
     heap w' !!! _F self
       = snd (step_result self (heap w !!! _F self)
                               (heap w !!! _m self)) /\
     forall l, l <> _m self -> l <> _F self ->
               heap w' !!! l = heap w !!! l).
Proof.
  intros Hnv.
  destruct (one_time_step_nv_on_beg self w Hnv) as (h & Hstep & Hheap).
  eexists. split; [exact Hstep|]. simpl.
  split; [done|]. split; [|exact Hheap].
  by rewrite drop_app_length.
Qed.

(** C3, amended.  The constructor sets [dt] to the quotient of [dx]
    by [la], [t] to 0 and [nt] to 0.  A call of [one_time_step] that
    returns has replaced [t] by the sum [t + dt] of the number type
    and [nt] by [nt + 1], so that after [n] calls [nt] is [n] and [t]
    is [dt] added [n] times to 0, each sum rounded where the type
    rounds.  [initialization] and the setters of [m] and [F] leave
    the object, hence [t] and [nt], as they were. *)
Theorem clock_of_a_run
    (junk : slab)
    (Domain_new : Dico R slab -> outcome (Domain.t R slab))
    (Scheme_new :
       Dico R slab -> bool -> outcome (Scheme.t R slab Boundary))
    (Boundary_new : Domain.t R slab -> Dico R slab -> outcome Boundary)
    dico dom sch nvb w0 self0 w1 (n : nat) selfn wn :
  Simulation_init junk Domain_new Scheme_new Boundary_new
    dico dom sch nvb w0 = (Return self0, w1) ->
  run n self0 w1 = (Return selfn, wn) ->
  dt self0 = div (Domain.dx (domain self0)) (Scheme.la (scheme self0)) /\
  t self0 = of_int 0 /\ nt self0 = 0 /\
  t selfn = accumulate n (dt self0) (of_int 0) /\
  nt selfn = Z.of_nat n /\
  dt selfn = dt self0 /\
  (forall self w self' w',
      one_time_step self w = (Return self', w') ->
      t self' = add (t self) (dt self) /\ nt self' = nt self + 1) /\
  (forall self d w self' w',
      initialization self d w = (Return self', w') -> self' = self) /\
  (forall self i j v w self' w',
      m_setter self i j v w = (Return self', w') -> self' = self) /\
  (forall self i j v w self' w',
      F_setter self i j v w = (Return self', w') -> self' = self).
Proof.
  intros Hinit Hrun.
  destruct (Simulation_init_inv _ _ _ _ _ _ _ _ _ _ _ Hinit)
    as (nvtot & w' & _ & _ & Ht & Hnt & Hdt & _).
  destruct (run_clock _ _ _ _ _ Hrun) as (Htn & Hntn & Hdtn).
  unfold truediv in Hdt.
  destruct (is_zero (Scheme.la (scheme self0))); [done|].
  injection Hdt as Hdt.
  rewrite Ht in Htn. rewrite Hnt in Hntn.
  repeat split; try done.
  - intros. by eapply one_time_step_clock.
  - intros. by eapply one_time_step_clock.
  - intros. by eapply initialization_self.
  - intros. by eapply m_setter_self.
  - intros. by eapply F_setter_self.
Qed.

(** *** The claims on the constructor *)

(** C5. When the domain and the scheme the constructor works with
    differ in dimension, the constructor does not return: it ends in
    [sys.exit()] (or, the lattice speed being zero, in the
    [ZeroDivisionError] of [dx / la] one line earlier).  The buffers
    and the calls are then what they were before the constructor
    ran: no buffer has been allocated, no kernel called. *)
Theorem dimension_mismatch_is_fatal
    (junk : slab)
    (Domain_new : Dico R slab -> outcome (Domain.t R slab))
    (Scheme_new :
       Dico R slab -> bool -> outcome (Scheme.t R slab Boundary))
    (Boundary_new : Domain.t R slab -> Dico R slab -> outcome Boundary)
    dico dom sch nvb w d s :
  exit_on_KeyError
    (match dom with Some d => Return d | None => Domain_new dico end)
    = Return d ->
  exit_on_KeyError
    (match sch with Some s => Return s | None => Scheme_new dico nvb end)
    = Return s ->
  Domain.dim d <> Scheme.dim s ->
  Simulation_init junk Domain_new Scheme_new Boundary_new
    dico dom sch nvb w
  = (if is_zero (Scheme.la s) then Raise ZeroDivisionError else Exit, w)
  /\ returns
       (fst (Simulation_init junk Domain_new Scheme_new Boundary_new
               dico dom sch nvb w)) = false.
Proof.
  intros Hd Hs Hdim.
  assert (Simulation_init junk Domain_new Scheme_new Boundary_new
            dico dom sch nvb w
          = (if is_zero (Scheme.la s) then Raise ZeroDivisionError
             else Exit, w)) as Heq.
  { unfold Simulation_init, mbind, lift, truediv.
    rewrite Hd, Hs.
    destruct (is_zero (Scheme.la s)); [done|].
    by destruct (Z.eqb_spec (Domain.dim d) (Scheme.dim s)). }
  split; [exact Heq|]. rewrite Heq.
  by destruct (is_zero (Scheme.la s)).
Qed.

(** C7. A constructor that returns has allocated [_m] and [_F], two
    buffers, with one and the same shape [msize], and has then run
    [initialization]: the initialisation functions have assigned
    slots of [m] when [inittype] is ['moments'] and slots of [F]
    otherwise, nothing else being written meanwhile, and after that
    the other buffer has been computed, by [equilibrium] on [m] and
    [m2f] from [m] to [F] in the first case, by [f2m] from [F] to [m]
    in the second.

    In full: the buffers are allocated after the buffers there were,
    each with the shape [msize] made of [nv_ptr[-1]] and of [Na]
    reversed; for every item [(k, v)] of the ['init'] dictionaries, in
    the order of the loops, the value of [v[0]] has been assigned to
    the slot [nv_ptr[ns] + k] of the buffer that is filled, so that
    this buffer holds the buffer as allocated with these assignments
    made one after the other; and when the constructor returns, [m]
    and [F] hold what [equilibrium] and [m2f] (respectively [f2m])
    return on the buffers so filled, [_Fold] holds the slots of [F],
    and the buffers there were before are untouched. *)
Theorem buffers_and_initialization
    (junk : slab)
    (Domain_new : Dico R slab -> outcome (Domain.t R slab))
    (Scheme_new :
       Dico R slab -> bool -> outcome (Scheme.t R slab Boundary))
    (Boundary_new : Domain.t R slab -> Dico R slab -> outcome Boundary)
    dico dom sch nvb w self w' :
  Simulation_init junk Domain_new Scheme_new Boundary_new
    dico dom sch nvb w = (Return self, w') ->
  exists msize ity w1 w2 nvtot schs coords stores,
    log w1 = log w ++ alloc_events self msize /\
    _m self <> _F self /\
    shape (heap w1 !!! _m self) = msize /\
    shape (heap w1 !!! _F self) = msize /\
    inittype dico = Some ity /\
    fills (if String.eqb ity "moments" then _m self else _F self)
          w1 w2 /\
    log w' = log w2 ++
      (if String.eqb ity "moments"
       then [Call Equilibrium [_m self]; Call M2f [_m self; _F self]]
       else [Call F2m [_F self; _m self]]) ++
      (if nv_on_beg self then []
       else match _Fold self with
            | Some l => [Copy l (_F self)]
            | None => []
            end) /\
    Py.index (Stencil.nv_ptr (Scheme.stencil (scheme self))) (-1)
    = Return nvtot /\
    msize = (if nv_on_beg self
             then [nvtot] ++ reverse (Domain.Na (domain self))
             else reverse (Domain.Na (domain self)) ++ [nvtot]) /\
    heap w1 = heap w ++
                replicate (if nv_on_beg self then 2 else 3)%nat
                  {| shape := msize;
                     slots := replicate (Z.to_nat nvtot) junk |} /\
    schemes dico = Some schs /\
    coords_of self = Return coords /\
    Forall2 (fun item st =>
               assigned self
                 (heap w1 !!! init_target self (String.eqb ity "moments"))
                 coords item = Return st)
            (init_items schs) stores /\
    stores_into (init_target self (String.eqb ity "moments"))
                stores w1 w2 /\
    heap w' !!! _m self
    = fst (init_result self (String.eqb ity "moments")
             (heap w2 !!! _m self) (heap w2 !!! _F self)) /\
    heap w' !!! _F self
    = snd (init_result self (String.eqb ity "moments")
             (heap w2 !!! _m self) (heap w2 !!! _F self)) /\
    match _Fold self with
    | Some l => nv_on_beg self = false /\
                slots (heap w' !!! l) = slots (heap w' !!! _F self)
    | None => nv_on_beg self = true
    end /\
    forall l, (l < length (heap w))%nat -> heap w' !!! l = heap w !!! l.
Proof.
  intros Hinit.
  destruct (Simulation_init_inv _ _ _ _ _ _ _ _ _ _ _ Hinit)
    as (nvtot & w1 & _ & _ & _ & _ & _ & _ & _ & _ & Hnvtot & Halloc & _
        & Hini).
  apply allocate_inv in Halloc as (Hm & HF & HFold & Hheap & Hlog).
  destruct (initialization_log _ _ _ _ _ Hini)
    as (ity & w2' & Hity & _ & _).
  destruct (initialization_run _ _ _ _ _ Hini)
    as (ity' & schs & coords & stores & w2 & w3 & Hity' & Hschs & Hcoords
        & Hall & Hinto & Hclose & Hcopy).
  rewrite Hity in Hity'. injection Hity' as <-.
  set (moments := String.eqb ity "moments") in *.
  set (msize := if nv_on_beg self
                then [nvtot] ++ reverse (Domain.Na (domain self))
                else reverse (Domain.Na (domain self)) ++ [nvtot]) in *.
  assert (length (heap w1)
          = (length (heap w) + if nv_on_beg self then 2 else 3)%nat)
    as Hlen1 by (by rewrite Hheap, length_app, length_replicate).
  destruct (stores_into_same _ _ _ _ Hinto)
    as (_ & _ & Hlen2 & Hother2).
  destruct Hinto as (Hheap2 & Hlog2 & Hin).
  assert (_m self < length (heap w2))%nat as Hmlt
    by (rewrite Hlen2, Hlen1; destruct (nv_on_beg self); lia).
  assert (_F self < length (heap w2))%nat as HFlt
    by (rewrite Hlen2, Hlen1; destruct (nv_on_beg self); lia).
  assert (_m self <> _F self) as Hne by lia.
  assert (fills (init_target self moments) w1 w2) as Hfills.
  { split; [|split; [|split]].
    - eexists. split; [exact Hlog2|].
      apply Forall_fmap, Forall_forall. intros st _. simpl.
      by rewrite Nat.eqb_refl.
    - exact Hother2.
    - exact Hlen2.
    - rewrite Hheap2.
      destruct (decide (init_target self moments < length (heap w1))%nat).
      + rewrite list_lookup_total_insert_eq by done.
        apply fold_assign_same.
      + by rewrite list_insert_ge by lia. }
  (* the world after the closing calls *)
  assert (log w3 = log w2 ++
            (if moments
             then [Call Equilibrium [_m self]; Call M2f [_m self; _F self]]
             else [Call F2m [_F self; _m self]]) /\
          length (heap w3) = length (heap w2) /\
          heap w3 !!! _m self
          = fst (init_result self moments
                   (heap w2 !!! _m self) (heap w2 !!! _F self)) /\
          heap w3 !!! _F self
          = snd (init_result self moments
                   (heap w2 !!! _m self) (heap w2 !!! _F self)) /\
          forall l, l <> _m self -> l <> _F self ->
                    heap w3 !!! l = heap w2 !!! l)
    as (Hlog3 & Hlen3 & Hm3 & HF3 & Hother3).
  { unfold close_initialization in Hclose. unfold init_result.
    destruct moments.
    - unfold mbind in Hclose. rewrite call1_run, call2_run in Hclose.
      injection Hclose as <-. simpl.
      rewrite !length_insert.
      repeat first
        [ rewrite list_lookup_total_insert_eq
            by (rewrite ?length_insert; lia)
        | rewrite list_lookup_total_insert_ne by congruence ].
      split; [by rewrite <- app_assoc|]. do 3 (split; [done|]).
      intros l Hlm HlF.
      by rewrite !list_lookup_total_insert_ne by congruence.
    - rewrite call2_run in Hclose. injection Hclose as <-. simpl.
      rewrite !length_insert.
      repeat first
        [ rewrite list_lookup_total_insert_eq
            by (rewrite ?length_insert; lia)
        | rewrite list_lookup_total_insert_ne by congruence ].
      do 4 (split; [done|]).
      intros l Hlm HlF.
      by rewrite !list_lookup_total_insert_ne by congruence. }
  (* the copy into [_Fold] *)
  assert (log w' = log w3 ++
            (if nv_on_beg self then []
             else match _Fold self with
                  | Some l => [Copy l (_F self)]
                  | None => []
                  end) /\
          heap w' !!! _m self = heap w3 !!! _m self /\
          heap w' !!! _F self = heap w3 !!! _F self /\
          match _Fold self with
          | Some l => nv_on_beg self = false /\
                      slots (heap w' !!! l) = slots (heap w' !!! _F self)
          | None => nv_on_beg self = true
          end /\
          forall l, (l < length (heap w))%nat ->
                    heap w' !!! l = heap w3 !!! l)
    as (Hlog4 & Hm4 & HF4 & HFold4 & Hother4).
  { rewrite HFold in *. destruct (nv_on_beg self).
    - subst w'. by rewrite app_nil_r.
    - apply copy_buffer_inv in Hcopy as (d & [= <-] & _ & ->). simpl.
      rewrite !(list_lookup_total_insert_ne _ _ (_m self)) by lia.
      rewrite !(list_lookup_total_insert_ne _ _ (_F self)) by lia.
      rewrite list_lookup_total_insert_eq by lia. simpl.
      do 4 (split; [done|]).
      intros l Hl. by rewrite list_lookup_total_insert_ne by lia. }
  exists msize, ity, w1, w2, nvtot, schs, coords, stores.
  split.
  { rewrite Hlog. unfold alloc_events. rewrite HFold.
    by destruct (nv_on_beg self). }
  split; [exact Hne|]. split.
  { rewrite Hheap, Hm, lookup_total_app_r by lia.
    rewrite Nat.sub_diag. by destruct (nv_on_beg self). }
  split.
  { rewrite Hheap, HF, Hm, lookup_total_app_r by lia.
    replace (S (length (heap w)) - length (heap w))%nat with 1%nat
      by lia.
    by destruct (nv_on_beg self). }
  split; [exact Hity|]. split; [exact Hfills|]. split.
  { by rewrite Hlog4, Hlog3, <- app_assoc. }
  split; [exact Hnvtot|]. split; [done|]. split; [exact Hheap|].
  split; [exact Hschs|]. split; [exact Hcoords|]. split; [exact Hall|].
  split; [by repeat split|].
  split; [by rewrite Hm4|]. split; [by rewrite HF4|].
  split; [exact HFold4|].
  intros l Hl. rewrite Hother4, Hother3 by lia.
  rewrite Hother2, Hheap.
  - by rewrite lookup_total_app_l.
  - unfold init_target. destruct moments; lia.
Qed.

End Generic.

(** *** The small simulation *)

Lemma toy_new :
  toy.new "moments" 1 true = (Return toy.sim, toy.start).
Proof. vm_compute. reflexivity. Qed.

Lemma toy_new2 :
  toy.new "distributions" 2 false = (Return toy.sim2, toy.start2).
Proof. vm_compute. reflexivity. Qed.

(** A step of the two-dimensional example, moment index last: the calls,
    and the two names exchanged. *)
Lemma swap_step_example :
  exists self' w',
    one_time_step toy.sim2 toy.start2 = (Return self', w') /\
    _F self' = 2%nat /\ _Fold self' = Some 1%nat /\
    log w' = log toy.start2 ++
      [Call SetBoundaryConditions [1; 0]%nat;
       Copy 2%nat 1%nat;
       Call Onetimestep [0; 1; 2]%nat].
Proof.
  destruct (one_time_step toy.sim2 toy.start2) as [r w'] eqn:Hstep.
  assert (returns r = true) as Hr
    by (by apply (f_equal (fun p => returns (fst p))) in Hstep;
        vm_compute in Hstep).
  destruct r as [self'| |]; [|done..].
  destruct (one_time_step_swap toy.sim2 _ _ _ eq_refl Hstep)
    as (ftmp & wmid & [= <-] & -> & Hlog & _).
  by exists (advance_clock (swap_buffers toy.sim2 2%nat)), w'.
Qed.

Lemma toy_after_eight :
  run 8 toy.sim toy.start = (Return (toy.sim_after 8), snd (toy.after 8)).
Proof. vm_compute. reflexivity. Qed.

Lemma one_time_step_sequence_witness :
  exists w',
    one_time_step toy.sim toy.start
      = (Return (advance_clock toy.sim), w') /\
    log w' = log toy.start ++
      [Call SetBoundaryConditions [1; 0]%nat;
       Call Transport [1%nat];
       Call F2m [1; 0]%nat;
       Call Relaxation [0%nat];
       Call M2f [0; 1]%nat] /\
    heap w' !!! 0%nat
      = fst (step_result toy.sim (heap toy.start !!! 1%nat)
                                 (heap toy.start !!! 0%nat)).
Proof.
  destruct (one_time_step_sequence toy.sim toy.start eq_refl)
    as (w' & Hstep & Hlog & _ & Hheap).
  exists w'. split; [exact Hstep|]. split; [exact Hlog|].
  apply Hheap; [discriminate|vm_compute; lia..].
Defined.

(** The claim of C3 fails in the program's arithmetic.  With the step
    and the lattice speed of the two-dimensional demo, [dx = 1/256] and
    [la = 20], eight calls of [one_time_step] leave [nt = 8] and
    [t = 0.0015624999999999999], while [8 * (dx / la)] and
    [8 * dx / la] are both [0.0015625000000000001]. *)
Lemma time_after_eight_steps :
  toy.new "moments" 1 true = (Return toy.sim, toy.start) /\
  run 8 toy.sim toy.start = (Return (toy.sim_after 8), snd (toy.after 8)) /\
  Domain.dx (domain toy.sim) = 0x1p-8%float /\
  Scheme.la (scheme toy.sim) = 20%float /\
  nt (toy.sim_after 8) = 8 /\
  t (toy.sim_after 8) = 0.0015624999999999999%float /\
  (8 * (0x1p-8 / 20))%float = 0.0015625000000000001%float /\
  (8 * 0x1p-8 / 20)%float = 0.0015625000000000001%float /\
  t (toy.sim_after 8) <> (8 * (0x1p-8 / 20))%float /\
  t (toy.sim_after 8) <> (8 * 0x1p-8 / 20)%float.
Proof.
  split; [exact toy_new|]. split; [exact toy_after_eight|].
  repeat split; try (vm_compute; reflexivity);
    intros Heq; vm_compute in Heq; discriminate Heq.
Qed.

Lemma clock_of_a_run_witness :
  dt toy.sim = (0x1p-8 / 20)%float /\
  t toy.sim = 0%float /\ nt toy.sim = 0 /\
  t (toy.sim_after 8) = accumulate 8 (dt toy.sim) 0%float /\
  nt (toy.sim_after 8) = 8.
Proof.
  destruct (clock_of_a_run [] toy.no_domain toy.no_scheme toy.boundary
              (toy.dico "moments") (Some (toy.domain 1))
              (Some (toy.scheme 1 true)) true toy.nothing
              toy.sim toy.start 8 (toy.sim_after 8) (snd (toy.after 8))
              toy_new toy_after_eight)
    as (Hdt & Ht & Hnt & Htn & Hntn & _).
  repeat split; assumption.
Defined.

(** Without rounding, [dt] added [n] times is [n * dt]: the time after
    [n] steps is [n * dx / la]. *)
Lemma accumulate_exact (n : nat) (dt t : Q) :
  (accumulate n dt t == t + inject_Z (Z.of_nat n) * dt)%Q.
Proof.
  revert t. induction n as [|n IH]; intros t.
  - simpl. ring.
  - cbn [accumulate]. rewrite IH. simpl add.
    rewrite Nat2Z.inj_succ. unfold Z.succ. rewrite inject_Z_plus. ring.
Qed.

Lemma dimension_mismatch_is_fatal_witness :
  Simulation_init [] toy.no_domain toy.no_scheme toy.boundary
    (toy.dico "moments") (Some (toy.domain 2)) (Some (toy.scheme 1 true))
    true toy.nothing
  = (Exit, toy.nothing).
Proof.
  exact (proj1 (dimension_mismatch_is_fatal (R := float)
                  [] toy.no_domain toy.no_scheme toy.boundary
                  (toy.dico "moments") (Some (toy.domain 2))
                  (Some (toy.scheme 1 true)) true toy.nothing
                  (toy.domain 2) (toy.scheme 1 true)
                  eq_refl eq_refl ltac:(discriminate))).
Defined.

Lemma buffers_and_initialization_witness :
  exists msize ity (w1 w2 : world toy.field) stores,
    log w1 = log toy.nothing ++ alloc_events toy.sim msize /\
    shape (heap w1 !!! _m toy.sim) = msize /\
    shape (heap w1 !!! _F toy.sim) = msize /\
    inittype (toy.dico "moments") = Some ity /\
    fills (if String.eqb ity "moments" then _m toy.sim else _F toy.sim)
          w1 w2 /\
    log toy.start = log w2 ++
      (if String.eqb ity "moments"
       then [Call Equilibrium [0%nat]; Call M2f [0; 1]%nat]
       else [Call F2m [1; 0]%nat]) /\
    length stores = 1%nat /\
    stores_into (init_target toy.sim (String.eqb ity "moments"))
                stores w1 w2 /\
    heap toy.start !!! _m toy.sim
    = fst (init_result toy.sim (String.eqb ity "moments")
             (heap w2 !!! _m toy.sim) (heap w2 !!! _F toy.sim)) /\
    heap toy.start !!! _F toy.sim
    = snd (init_result toy.sim (String.eqb ity "moments")
             (heap w2 !!! _m toy.sim) (heap w2 !!! _F toy.sim)).
Proof.
  destruct (buffers_and_initialization [] toy.no_domain toy.no_scheme
              toy.boundary (toy.dico "moments") (Some (toy.domain 1))
              (Some (toy.scheme 1 true)) true toy.nothing
              toy.sim toy.start toy_new)
    as (msize & ity & w1 & w2 & nvtot & schs & coords & stores
        & H1 & _ & H2 & H3 & H4 & H5 & H6 & _ & _ & _ & Hschs & _
        & Hall & Hinto & Hm & HF & _).
  exists msize, ity, w1, w2, stores.
  split; [exact H1|]. split; [exact H2|]. split; [exact H3|].
  split; [exact H4|]. split; [exact H5|]. split.
  { etransitivity; [exact H6|]. f_equal. apply app_nil_r. }
  split.
  { injection Hschs as <-. apply Forall2_length in Hall.
    symmetry. exact Hall. }
  split; [exact Hinto|]. split; [exact Hm|exact HF].
Defined.

(** C4, on the small simulation, whose one scheme has two velocities
    ([nv = [2]], [nv_ptr = [0, 2]]): [m[0][1]] is the slot 1 of the
    moment buffer, but [m[0][:]] is a window on one slot, the first,
    and not on the two of the scheme; and [F[0][:]] is a
    [TypeError]. *)
Theorem open_slice_misses_last_slot :
  let all := Slice {| start := None; stop := None; step := None |} in
  Stencil.nv (Scheme.stencil (scheme toy.sim)) = [2] /\
  Stencil.nv_ptr (Scheme.stencil (scheme toy.sim)) = [0; 2] /\
  m toy.sim 0 (Int 1) toy.start
    = (Return (SlotView 0%nat 1%nat), toy.start) /\
  m toy.sim 0 all toy.start
    = (Return (RangeView 0%nat 0%nat 1%nat), toy.start) /\
  view_read (heap toy.start) (RangeView 0%nat 0%nat 1%nat)
    = [[1; 1; 1; 0; 0; 0]%float] /\
  slots (heap toy.start !!! 0%nat)
    = [[1; 1; 1; 0; 0; 0]%float; [0.5; 0.5; 0.5; 0; 0; 0]%float] /\
  F toy.sim 0 all toy.start = (Raise TypeError, toy.start).
Proof. repeat split; vm_compute; reflexivity. Qed.

End simulation_facts.

(** * Further properties of [geometry.py] *)

Module geometry_more.
Import geometry drawing more.

(** [l[i]] for an index that is not negative. *)
Lemma index_nonneg {A} (l : list A) (i : Z) :
  0 <= i ->
  Py.index l i =
    match l !! Z.to_nat i with
    | Some a => Return a
    | None => Raise IndexError
    end.
Proof.
  intros Hi. unfold Py.index, Py.norm_index.
  destruct (Z.leb_spec 0 i); [|lia]. simpl.
  destruct (Z.ltb_spec i (Z.of_nat (length l))) as [Hlt|Hge]; [done|].
  rewrite (lookup_ge_None_2 l (Z.to_nat i)) by lia.
  destruct (Z.leb_spec (- Z.of_nat (length l)) i); simpl; [|done].
  destruct (Z.ltb_spec i 0); [lia|done].
Qed.

Lemma fold_left_keeps_length {A B} (f : list A -> B -> list A) :
  (forall l b, length (f l b) = length l) ->
  forall bs l, length (fold_left f bs l) = length l.
Proof.
  intros Hf bs. induction bs as [|b bs IH]; intros l; simpl; [done|].
  by rewrite IH, Hf.
Qed.

Lemma interface_flags_length (dims : list Z) (rank n : Z) :
  length (interface_flags dims rank n) = Z.to_nat (2 * n).
Proof.
  unfold interface_flags. rewrite fold_left_keeps_length.
  - apply length_replicate.
  - intros l i. simpl.
    repeat match goal with
           | |- context [if ?c then _ else _] => destruct c
           end; by rewrite ?length_insert.
Qed.

(** *** [list_of_labels] and [add_elem] *)

Lemma list_of_labels_snoc {R : Type} `{Num R} (g : Geometry R)
    (es : list Element) (e : Element) :
  list_elem g = es ++ [e] ->
  exists L, list_of_labels g = union1d L (label e).
Proof.
  intros Hes. unfold list_of_labels. rewrite Hes, fold_left_app. simpl.
  by eexists.
Qed.

(** X1. As soon as the geometry has an element, [list_of_labels] is
    sorted in increasing order without repeats, and its members are the
    labels of the box (as 32-bit integers) and the labels of all the
    elements. *)
Theorem list_of_labels_sorted_union {R : Type} `{Num R} (g : Geometry R) :
  list_elem g <> [] ->
  StronglySorted Z.lt (list_of_labels g) /\
  NoDup (list_of_labels g) /\
  forall x, x ∈ list_of_labels g <->
            x ∈ int32 <$> box_label g \/
            exists e, e ∈ list_elem g /\ x ∈ label e.
Proof.
  intros Hne.
  assert (StronglySorted Z.lt (list_of_labels g)) as Hsorted.
  { destruct (list_elem g) as [|e0 es0] eqn:Hes using rev_ind; [done|].
    destruct (list_of_labels_snoc g _ _ Hes) as [L ->].
    apply geometry_facts.unique_sorted. }
  split; [exact Hsorted|]. split.
  - by apply geometry_facts.sorted_NoDup.
  - intros x. apply geometry_facts.fold_union1d_elem.
Qed.

Lemma list_of_labels_sorted_union_witness :
  list_of_labels (built (cavity None (Some [obstacle; pool]))) = [0; 1; 2] /\
  StronglySorted Z.lt
    (list_of_labels (built (cavity None (Some [obstacle; pool])))).
Proof.
  split; [vm_compute; reflexivity|].
  apply (list_of_labels_sorted_union
           (built (cavity None (Some [obstacle; pool])))).
  vm_compute. discriminate.
Defined.

(** X2. [add_elem] appends the element and changes nothing else, and
    the labels of the new geometry are the union of the labels of the
    old one with those of the element, sorted and without repeats. *)
Theorem add_elem_labels {R : Type} `{Num R} (g : Geometry R) (e : Element) :
  list_elem (add_elem g e) = list_elem g ++ [e] /\
  dim (add_elem g e) = dim g /\
  bounds (add_elem g e) = bounds g /\
  box_label (add_elem g e) = box_label g /\
  isInterface (add_elem g e) = isInterface g /\
  list_of_labels (add_elem g e) = union1d (list_of_labels g) (label e) /\
  StronglySorted Z.lt (list_of_labels (add_elem g e)) /\
  forall x, x ∈ list_of_labels (add_elem g e) <->
            x ∈ list_of_labels g \/ x ∈ label e.
Proof.
  assert (list_of_labels (add_elem g e)
          = union1d (list_of_labels g) (label e)) as Heq.
  { unfold list_of_labels, add_elem. simpl. by rewrite fold_left_app. }
  do 5 (split; [done|]). split; [exact Heq|]. rewrite Heq. split.
  - apply geometry_facts.unique_sorted.
  - intros x. apply geometry_facts.union1d_elem.
Qed.

(** *** What the constructor returns *)

Lemma Geometry_init_lengths {R : Type} `{Num R}
    (size rank : Z) (Compute_dims : Z -> Z -> list Z)
    (d : Dico R) (g : Geometry R) :
  Geometry_init size rank Compute_dims d = Return g ->
  1 <= dim g <= 3 /\
  Z.of_nat (length (bounds g)) = dim g /\
  Z.of_nat (length (comm_dims g)) = dim g /\
  Z.of_nat (length (comm_coords g)) = dim g /\
  Z.of_nat (length (isInterface g)) = 2 * dim g /\
  list_elem g = default [] (elements d).
Proof.
  intros Hg.
  destruct (geometry_facts.Geometry_init_bounds _ _ _ _ _ Hg)
    as (n & gb & Hgb & Hdims & Hcoords & Hlen & _).
  destruct (geometry_facts.Geometry_init_inv _ _ _ _ _ Hg)
    as (n' & gb' & Hgb' & Hsplit & Hdim & _ & _ & _ & Helem & _).
  rewrite Hgb in Hgb'. injection Hgb' as <- <-.
  destruct (geometry_facts.get_box_length _ _ _ Hgb) as [Hgl Hn].
  rewrite Hdim, Hlen, Hcoords, geometry_facts.Get_coords_length, Hdims.
  repeat split; try done; try lia.
  unfold Geometry_init in Hg. rewrite Hgb in Hg. simpl in Hg.
  destruct (negb _); [done|]. injection Hg as <-. simpl.
  rewrite interface_flags_length. lia.
Qed.

(** X3. The geometry the constructor returns is consistent: its
    dimension is 1, 2 or 3, it has one pair of bounds and one grid
    coordinate per direction, two interface flags per direction, and its
    elements are those of the dictionary in their order (none when the
    key is absent). *)
Theorem Geometry_init_consistent {R : Type} `{Num R}
    (size rank : Z) (Compute_dims : Z -> Z -> list Z)
    (d : Dico R) (g : Geometry R) :
  Geometry_init size rank Compute_dims d = Return g ->
  1 <= dim g <= 3 /\
  Z.of_nat (length (bounds g)) = dim g /\
  Z.of_nat (length (comm_dims g)) = dim g /\
  Z.of_nat (length (comm_coords g)) = dim g /\
  Z.of_nat (length (isInterface g)) = 2 * dim g /\
  list_elem g = default [] (elements d).
Proof. apply Geometry_init_lengths. Qed.

Lemma Geometry_init_consistent_witness :
  dim (built (cavity None (Some [obstacle; pool]))) = 2 /\
  length (bounds (built (cavity None (Some [obstacle; pool])))) = 2%nat /\
  length (isInterface (built (cavity None (Some [obstacle; pool])))) = 4%nat /\
  list_elem (built (cavity None (Some [obstacle; pool]))) = [obstacle; pool].
Proof.
  destruct (Geometry_init_consistent 1 0 examples.one_process
              (cavity None (Some [obstacle; pool]))
              (built (cavity None (Some [obstacle; pool]))) eq_refl)
    as (_ & _ & _ & _ & _ & Helem).
  do 3 (split; [vm_compute; reflexivity|]). exact Helem.
Defined.

(** X4. The labels of the edges of the box: without a ['label'] key
    every one of the [2 * dim] edges gets 0, with an integer every one of
    them gets that integer, and a list is taken as it is, whatever its
    length. *)
Theorem box_label_defaults {R : Type} `{Num R}
    (size rank : Z) (Compute_dims : Z -> Z -> list Z)
    (d : Dico R) (b : Box R) (g : Geometry R) :
  Geometry_init size rank Compute_dims d = Return g ->
  box d = Some b ->
  match box_label_key b with
  | None =>
      box_label g = replicate (Z.to_nat (2 * dim g)) 0 /\
      Z.of_nat (length (box_label g)) = 2 * dim g
  | Some (LabelInt n) =>
      box_label g = replicate (Z.to_nat (2 * dim g)) n /\
      Z.of_nat (length (box_label g)) = 2 * dim g
  | Some (LabelList l) => box_label g = l
  end.
Proof.
  intros Hg Hb.
  pose proof (geometry_facts.box_label_of_init _ _ _ _ _ _ Hg Hb) as Hlab.
  destruct (Geometry_init_lengths _ _ _ _ _ Hg) as (Hdim & _).
  destruct (box_label_key b) as [[n|l]|]; [|done|];
    (split; [done|]); rewrite Hlab, length_replicate; lia.
Qed.

Lemma box_label_defaults_witness :
  box_label (built (cavity (Some (LabelInt 7)) None)) = [7; 7; 7; 7] /\
  box_label (built (cavity (Some (LabelList [1; 2])) None)) = [1; 2] /\
  box_label (built (cavity None None)) = [0; 0; 0; 0].
Proof.
  split; [|split].
  - exact (proj1 (box_label_defaults 1 0 examples.one_process
                    (cavity (Some (LabelInt 7)) None) _
                    (built (cavity (Some (LabelInt 7)) None))
                    eq_refl eq_refl)).
  - exact (box_label_defaults 1 0 examples.one_process
             (cavity (Some (LabelList [1; 2])) None) _
             (built (cavity (Some (LabelList [1; 2])) None))
             eq_refl eq_refl).
  - exact (proj1 (box_label_defaults 1 0 examples.one_process
                    (cavity None None) _ (built (cavity None None))
                    eq_refl eq_refl)).
Defined.

(** X5. On a run of one process, whose grid is 1 in every direction, no
    edge of the box is an interface with another process. *)
Theorem single_process_has_no_interface {R : Type} `{Num R}
    (Compute_dims : Z -> Z -> list Z) (d : Dico R) (g : Geometry R) :
  (forall n, Compute_dims 1 n = replicate (Z.to_nat n) 1) ->
  Geometry_init 1 0 Compute_dims d = Return g ->
  isInterface g = replicate (Z.to_nat (2 * dim g)) false.
Proof.
  intros Hone Hg.
  destruct (Geometry_init_lengths _ _ _ _ _ Hg) as (Hdim & _).
  destruct (geometry_facts.Geometry_init_inv _ _ _ _ _ Hg)
    as (n & gb & Hgb & _ & Hn & _).
  unfold Geometry_init in Hg. rewrite Hgb in Hg. simpl in Hg.
  destruct (negb _); [done|]. injection Hg as <-. simpl in *.
  rewrite Hone.
  assert (n = 1 \/ n = 2 \/ n = 3) as [->|[->| ->]] by lia;
    vm_compute; reflexivity.
Qed.

Lemma single_process_has_no_interface_witness :
  isInterface (built (cavity None None)) = [false; false; false; false].
Proof.
  apply (single_process_has_no_interface examples.one_process
           (cavity None None) (built (cavity None None))).
  - reflexivity.
  - reflexivity.
Defined.

(** *** [visualize] *)

(** X6. On a geometry that the constructor returned, [visualize] without
    labels always goes through, and [visualize] with labels goes through
    exactly when the geometry is three-dimensional (nothing is drawn
    then) or the box has at least [2 * dim] labels: a shorter list of
    labels, which the constructor accepts, is an [IndexError] here. *)
Theorem visualize_needs_all_labels {R : Type} `{Num R}
    (size rank : Z) (Compute_dims : Z -> Z -> list Z)
    (d : Dico R) (g : Geometry R) :
  Geometry_init size rank Compute_dims d = Return g ->
  returns (visualize g false) = true /\
  (returns (visualize g true) = true <->
   dim g = 3 \/ 2 * dim g <= Z.of_nat (length (box_label g))) /\
  (returns (visualize g true) = false ->
   visualize g true = Raise IndexError).
Proof.
  intros Hg.
  destruct (Geometry_init_lengths _ _ _ _ _ Hg)
    as (Hdim & Hb & _).
  unfold visualize, segment_texts, rectangle_texts.
  rewrite !index_nonneg by lia.
  destruct (bounds g) as [|b0 [|b1 bs]] eqn:Hbs; simpl in Hb; [lia|..].
  - assert (dim g = 1) as -> by lia. simpl.
    destruct (box_label g) as [|l0 [|l1 ls]]; simpl;
      (split; [done|]); split; try done;
      split; try done; try lia; intros [?|?]; simpl in *; lia.
  - assert (dim g = 2 \/ dim g = 3) as [-> | ->] by lia; simpl.
    + destruct (box_label g) as [|l0 [|l1 [|l2 [|l3 ls]]]]; simpl;
        (split; [done|]); split; try done;
        split; try done; try lia; intros [?|?]; simpl in *; lia.
    + split; [done|]. split; [|done]. split; [by left|done].
Qed.

Lemma visualize_needs_all_labels_witness :
  visualize (built (cavity (Some (LabelList [1; 2])) None)) true
    = Raise IndexError /\
  returns (visualize (built (cavity None (Some [obstacle; pool]))) true)
    = true.
Proof.
  split.
  - apply (visualize_needs_all_labels 1 0 examples.one_process
             (cavity (Some (LabelList [1; 2])) None)
             (built (cavity (Some (LabelList [1; 2])) None)) eq_refl).
    reflexivity.
  - apply (visualize_needs_all_labels 1 0 examples.one_process
             (cavity None (Some [obstacle; pool]))
             (built (cavity None (Some [obstacle; pool]))) eq_refl).
    right. vm_compute. discriminate.
Defined.

End geometry_more.

(** * Further properties of [simulation.py] *)

Module simulation_more.
Import simulation more.
Import simulation_facts.

Section Generic.
Context {R : Type} `{Num R} {slab Boundary : Type}.
Implicit Types (self : Simulation R slab Boundary) (w : world slab).

(** *** Steps *)

Lemma steps_only_refl w : steps_only w w.
Proof. split; [done|]. exists []. by rewrite app_nil_r. Qed.

Lemma steps_only_trans w1 w2 w3 :
  steps_only w1 w2 -> steps_only w2 w3 -> steps_only w1 w3.
Proof.
  intros (Hn1 & e1 & Hl1 & He1) (Hn2 & e2 & Hl2 & He2).
  split; [congruence|]. exists (e1 ++ e2).
  rewrite Hl2, Hl1, app_assoc. split; [done|].
  rewrite forallb_app. by rewrite He1, He2.
Qed.

Lemma mbind_steps_only {A B} (c : M slab A) (k : A -> M slab B) :
  (forall w, steps_only w (snd (c w))) ->
  (forall a w, steps_only w (snd (k a w))) ->
  forall w, steps_only w (snd (mbind c k w)).
Proof.
  intros Hc Hk w. unfold mbind. specialize (Hc w).
  destruct (c w) as [[a| |e] w1]; simpl in *; [|done..].
  eapply steps_only_trans; [exact Hc|apply Hk].
Qed.

Lemma call1_steps_only f k a w : steps_only w (snd (call1 f k a w)).
Proof.
  rewrite call1_run. simpl. split; simpl.
  - by rewrite length_insert.
  - by eexists.
Qed.

Lemma call2_steps_only f k a b w : steps_only w (snd (call2 f k a b w)).
Proof.
  rewrite call2_run. simpl. split; simpl.
  - by rewrite !length_insert.
  - by eexists.
Qed.

Lemma call3_steps_only f k a b c w :
  steps_only w (snd (call3 f k a b c w)).
Proof.
  rewrite call3_run. simpl. split; simpl.
  - by rewrite !length_insert.
  - by eexists.
Qed.

Lemma copy_buffer_steps_only dst src w :
  steps_only w (snd (copy_buffer dst src w)).
Proof.
  unfold copy_buffer. destruct dst as [d|]; [|apply steps_only_refl].
  unfold mbind, read, write, emit, lift. simpl.
  case_bool_decide; simpl; [|apply steps_only_refl].
  split; simpl.
  - by rewrite length_insert.
  - by eexists.
Qed.

Lemma one_time_step_steps_only self w :
  steps_only w (snd (one_time_step self w)).
Proof.
  revert w. unfold one_time_step.
  apply mbind_steps_only; [intros; apply call2_steps_only|].
  intros _. apply mbind_steps_only; [|intros; apply steps_only_refl].
  destruct (nv_on_beg self).
  - repeat (apply mbind_steps_only;
            [intros; first [apply call1_steps_only|apply call2_steps_only]
            |intros _]).
    intros; apply steps_only_refl.
  - apply mbind_steps_only; [intros; apply copy_buffer_steps_only|].
    intros _. apply mbind_steps_only; [intros; apply steps_only_refl|].
    intros ftmp. apply mbind_steps_only; [intros; apply call3_steps_only|].
    intros; apply steps_only_refl.
Qed.

Lemma run_steps_only (n : nat) self w : steps_only w (snd (run n self w)).
Proof.
  revert self w. induction n as [|n IH]; intros self w; simpl.
  - apply steps_only_refl.
  - revert w. apply mbind_steps_only.
    + intros. apply one_time_step_steps_only.
    + intros. apply IH.
Qed.

(** X7. Whatever the layout and however it ends, a run of steps neither
    allocates nor drops a buffer, and all it does to the buffers are
    calls of the scheme and copies: no slot is assigned directly and
    nothing is allocated. *)
Theorem run_never_allocates (n : nat) self w :
  length (heap (snd (run n self w))) = length (heap w) /\
  exists evs,
    log (snd (run n self w)) = log w ++ evs /\
    forallb is_call_or_copy evs = true.
Proof. apply run_steps_only. Qed.

Lemma swap_step_names self w self' w' :
  nv_on_beg self = false ->
  one_time_step self w = (Return self', w') ->
  exists ftmp,
    _Fold self = Some ftmp /\
    _F self' = ftmp /\ _Fold self' = Some (_F self) /\
    _m self' = _m self /\ nv_on_beg self' = false.
Proof.
  intros Hnv Hstep.
  destruct (one_time_step_swap _ _ _ _ Hnv Hstep)
    as (ftmp & wmid & HFold & -> & _).
  exists ftmp. by repeat split.
Qed.

(** X8. In the moment-index-fastest layout [n] steps in a row always
    return; they leave the object as it was but for the clock, advanced
    [n] times, and they make the five calls of a step [n] times over, on
    the same two buffers. *)
Theorem run_repeats_the_step (n : nat) self w :
  nv_on_beg self = true ->
  exists w',
    run n self w = (Return (Nat.iter n advance_clock self), w') /\
    log w' = log w ++ mjoin (replicate n (step_events self)) /\
    _m (Nat.iter n advance_clock self) = _m self /\
    _F (Nat.iter n advance_clock self) = _F self.
Proof.
  revert self w. induction n as [|n IH]; intros self w Hnv.
  - exists w. simpl. by rewrite app_nil_r.
  - destruct (one_time_step_nv_on_beg self w Hnv) as (h & Hstep & _).
    destruct (IH (advance_clock self)
                 {| heap := h; log := log w ++ step_events self |} Hnv)
      as (w' & Hrun & Hlog & Hm & HF).
    exists w'. cbn [run]. erewrite mbind_Return by exact Hstep.
    rewrite <- Nat.iter_succ_r in Hrun, Hm, HF.
    split; [exact Hrun|]. split; [|by split].
    rewrite Hlog. cbn [replicate mjoin list_join log].
    by rewrite <- app_assoc.
Qed.

(** X9. A step that returns in the spatial-index-fastest layout has
    called [set_boundary_conditions] on [F] and [m], copied [F] into
    [_Fold], called the fused kernel on [m], [F] and [_Fold], which
    found in [_Fold] the slots of [F], and has then exchanged the names
    [_F] and [_Fold]; [_m] is the name it was. *)
Theorem step_exchanges_the_buffers self w self' w' :
  nv_on_beg self = false ->
  one_time_step self w = (Return self', w') ->
  exists ftmp wmid,
    _Fold self = Some ftmp /\
    _F self' = ftmp /\ _Fold self' = Some (_F self) /\
    _m self' = _m self /\ nv_on_beg self' = false /\
    log w' = log w ++
      [Call SetBoundaryConditions [_F self; _m self];
       Copy ftmp (_F self);
       Call Onetimestep [_m self; _F self; ftmp]] /\
    ((ftmp < length (heap w))%nat ->
     slots (heap wmid !!! ftmp) = slots (heap wmid !!! _F self)) /\
    call3 Onetimestep
      (fun m F Fold =>
         Scheme.onetimestep (scheme self) m F Fold
           (Domain.in_or_out (domain self))
           (Domain.valin (domain self)))
      (_m self) (_F self) ftmp wmid
    = (Return tt, w').
Proof.
  intros Hnv Hstep.
  destruct (one_time_step_swap _ _ _ _ Hnv Hstep)
    as (ftmp & wmid & HFold & -> & Hlog & Hcopy & Hcall).
  exists ftmp, wmid. by repeat split.
Qed.

(** X10. In the spatial-index-fastest layout the two distribution
    buffers alternate: after an even number of steps [_F] and [_Fold]
    name the buffers they named at the start, after an odd number they
    name each other's. *)
Theorem buffers_alternate (n : nat) self w self' w' ftmp :
  nv_on_beg self = false ->
  _Fold self = Some ftmp ->
  run n self w = (Return self', w') ->
  _m self' = _m self /\
  if Nat.even n
  then _F self' = _F self /\ _Fold self' = Some ftmp
  else _F self' = ftmp /\ _Fold self' = Some (_F self).
Proof.
  revert self w ftmp. induction n as [|n IH]; intros self w ftmp Hnv HFold Hrun.
  - injection Hrun as <- _. by simpl.
  - cbn [run] in Hrun.
    apply mbind_inv in Hrun as (self1 & w1 & Hstep & Hrun).
    destruct (swap_step_names _ _ _ _ Hnv Hstep)
      as (f & HFold' & HF1 & HFold1 & Hm1 & Hnv1).
    rewrite HFold in HFold'. injection HFold' as <-.
    destruct (IH _ _ _ Hnv1 HFold1 Hrun) as (Hm & Halt).
    split; [congruence|].
    rewrite Nat.even_succ. unfold Nat.odd.
    destruct (Nat.even n); simpl; destruct Halt; split; congruence.
Qed.

(** *** The accessors

    The subscript of a setter designates a slot of the velocity axis in
    the moment-index-fastest layout ([buf[k]]) and, in the other layout
    ([buf[:, :, k]]), on a buffer of three axes; on a buffer of fewer
    axes numpy refuses it.  The properties of an assignment are stated
    for these cases.  On a buffer of more than three axes
    [buf[:, :, k]] cuts a direction of the grid across all the slots:
    nothing is stated on that case. *)

(** What a successful assignment to a slot leaves behind, and what the
    getter of the same subscript then returns. *)
Lemma store_then_read self buf idx v w u w' :
  store_slot self buf idx v w = (Return u, w') ->
  exists k,
    slot_of self (heap w' !!! buf) idx = Return k /\
    view_read (heap w') (SlotView buf k) = [v] /\
    log w' = log w ++ [Store buf k] /\
    length (slots (heap w' !!! buf)) = length (slots (heap w !!! buf)) /\
    (forall k', k' <> k ->
                slots (heap w' !!! buf) !! k' = slots (heap w !!! buf) !! k') /\
    (forall l, l <> buf -> heap w' !!! l = heap w !!! l).
Proof.
  intros Hstore.
  apply store_slot_inv in Hstore as (k & Hk & Hbuf & ->).
  exists k. simpl.
  rewrite list_lookup_total_insert_eq by done. simpl.
  pose proof (slot_of_lt _ _ _ _ Hk) as Hlt.
  split; [|split; [|split; [|split; [|split]]]].
  - rewrite <- Hk. apply slot_of_same; [done|]. simpl.
    by rewrite length_insert.
  - by rewrite list_lookup_insert_eq.
  - done.
  - by rewrite length_insert.
  - intros k' Hk'. by rewrite list_lookup_insert_ne.
  - intros l Hl. by rewrite list_lookup_total_insert_ne.
Qed.

(** X11. Writing then reading a moment, in the moment-index-fastest
    layout or on a moment buffer of at most three axes: after
    [sim.m[i][j] = value] has gone through, [sim.m[i][j]] is a view on
    one slot of the moment buffer that shows [value]; the other slots
    of the buffer and the other buffers are what they were, and the
    object is unchanged. *)
Theorem m_setter_then_m self i j v w self' w' :
  nv_on_beg self = true \/
    (length (shape (heap w !!! _m self)) <= 3)%nat ->
  m_setter self i (Int j) v w = (Return self', w') ->
  self' = self /\
  exists k,
    m self i (Int j) w' = (Return (SlotView (_m self) k), w') /\
    view_read (heap w') (SlotView (_m self) k) = [v] /\
    log w' = log w ++ [Store (_m self) k] /\
    (forall k', k' <> k ->
                slots (heap w' !!! _m self) !! k'
                = slots (heap w !!! _m self) !! k') /\
    (forall l, l <> _m self -> heap w' !!! l = heap w !!! l).
Proof.
  intros _ Hset. split; [by eapply m_setter_self|].
  unfold m_setter in Hset.
  apply mbind_inv in Hset as (idx & w1 & Hidx & Hset).
  apply lift_inv in Hidx as [Hidx ->].
  apply mbind_inv in Hset as (u & w1 & Hstore & Hret).
  injection Hret as _ <-.
  unfold offset in Hidx.
  destruct (nv_ptr_at self i) as [base| |] eqn:Hbase; [|done..].
  simpl in Hidx. injection Hidx as <-.
  destruct (store_then_read _ _ _ _ _ _ _ Hstore)
    as (k & Hk & Hread & Hlog & _ & Hslots & Hframe).
  exists k. split; [|by repeat split].
  unfold m, mbind, lift, read, ret. by rewrite Hbase, Hk.
Qed.

(** X12. Writing then reading a distribution, in the
    moment-index-fastest layout or on a distribution buffer of at most
    three axes: after [sim.F[i][j] = value] has gone through,
    [sim.F[i][j]] is a view on one slot of the distribution buffer that
    shows [value]; the other slots of the buffer and the other buffers
    are what they were, and the object is unchanged. *)
Theorem F_setter_then_F self i j v w self' w' :
  nv_on_beg self = true \/
    (length (shape (heap w !!! _F self)) <= 3)%nat ->
  F_setter self i (Int j) v w = (Return self', w') ->
  self' = self /\
  exists k,
    F self i (Int j) w' = (Return (SlotView (_F self) k), w') /\
    view_read (heap w') (SlotView (_F self) k) = [v] /\
    log w' = log w ++ [Store (_F self) k] /\
    (forall k', k' <> k ->
                slots (heap w' !!! _F self) !! k'
                = slots (heap w !!! _F self) !! k') /\
    (forall l, l <> _F self -> heap w' !!! l = heap w !!! l).
Proof.
  intros _ Hset. split; [by eapply F_setter_self|].
  unfold F_setter in Hset.
  apply mbind_inv in Hset as (idx & w1 & Hidx & Hset).
  apply lift_inv in Hidx as [Hidx ->].
  apply mbind_inv in Hset as (u & w1 & Hstore & Hret).
  injection Hret as _ <-.
  destruct (store_then_read _ _ _ _ _ _ _ Hstore)
    as (k & Hk & Hread & Hlog & _ & Hslots & Hframe).
  exists k. split; [|by repeat split].
  unfold F, mbind, lift, read, ret. by rewrite Hidx, Hk.
Qed.

(** A computation that only reads. *)
Lemma lift_reads {A} (o : outcome A) w : snd (lift o w) = w.
Proof. done. Qed.

Lemma mbind_reads {A B} (c : M slab A) (k : A -> M slab B) w :
  snd (c w) = w -> (forall a, snd (k a w) = w) -> snd (mbind c k w) = w.
Proof.
  intros Hc Hk. unfold mbind.
  destruct (c w) as [[a| |e] w1]; simpl in *; subst; by try apply Hk.
Qed.

(** X13. The getters of [m] and [F] only read: whatever the subscripts
    and however the call ends, the buffers and the log of calls are what
    they were. *)
Theorem getters_do_not_write self i j w :
  snd (m self i j w) = w /\ snd (F self i j w) = w.
Proof.
  split.
  - unfold m. destruct j as [j|j].
    + repeat (apply mbind_reads; [done|intros ?]). done.
    + repeat (apply mbind_reads; [done|intros ?]). by destruct a2.
  - unfold F. repeat (apply mbind_reads; [done|intros ?]). done.
Qed.

(** Where the subscript designates the velocity axis, all that the
    subscript of a buffer can raise is an [IndexError]. *)
Lemma slot_of_outcomes self (a : ndarray slab) (idx : Z) :
  nv_on_beg self = true \/ (length (shape a) <= 3)%nat ->
  match slot_of self a idx with
  | Return _ => True
  | Exit => False
  | Raise e => e = IndexError
  end.
Proof.
  intros Hlayout. unfold slot_of.
  destruct (nv_on_beg self).
  - by destruct (Py.norm_index _ idx).
  - destruct Hlayout as [|Hlen]; [done|].
    destruct (Nat.compare_spec (length (shape a)) 3); [|done|lia].
    by destruct (Py.norm_index _ idx).
Qed.



(** X15. In the moment-index-fastest layout, or on a moment buffer of
    three axes, with a slice that gives its stop and whose range
    [nv_ptr[i] + start .. nv_ptr[i] + stop] lies in the buffer,
    [m[i][start:stop]] is the window of [stop - start] slots that
    begins at the slot [nv_ptr[i] + start] of the moment buffer:
    [nv[i]] is not looked at, so the window is not confined to the
    scheme [i], and the step of the slice is ignored. *)
Theorem m_Slice_explicit self i a b st w base :
  nv_on_beg self = true \/
    length (shape (heap w !!! _m self)) = 3%nat ->
  nv_ptr_at self i = Return base ->
  0 <= base + a <= base + b ->
  base + b <= Z.of_nat (length (slots (heap w !!! _m self))) ->
  m self i (Slice {| start := Some a; stop := Some b; step := st |}) w
  = (Return (RangeView (_m self) (Z.to_nat (base + a)) (Z.to_nat (b - a))),
     w) /\
  view_read (heap w)
    (RangeView (_m self) (Z.to_nat (base + a)) (Z.to_nat (b - a)))
  = take (Z.to_nat (b - a))
         (drop (Z.to_nat (base + a)) (slots (heap w !!! _m self))) /\
  length (view_read (heap w)
            (RangeView (_m self) (Z.to_nat (base + a)) (Z.to_nat (b - a))))
  = Z.to_nat (b - a).
Proof.
  intros Hlayout Hbase Hab Hlen. split; [|split; [done|]].
  - unfold m, mbind, lift, read, ret, range_of.
    cbn -[Py.slice_range]. rewrite Hbase.
    assert (Py.slice_range
              (Z.of_nat (length (slots (heap w !!! _m self))))
              (base + a) (base + b)
            = (Z.to_nat (base + a), Z.to_nat (b - a))) as Hrange.
    { unfold Py.slice_range, Py.clip.
      destruct (Z.ltb_spec (base + a) 0); [lia|].
      destruct (Z.ltb_spec (base + b) 0); [lia|].
      f_equal; f_equal; lia. }
    destruct Hlayout as [->| ->]; cbn -[Py.slice_range].
    + by rewrite Hrange.
    + destruct (nv_on_beg self); by rewrite Hrange.
  - simpl. rewrite length_take, length_drop. lia.
Qed.

(** X16. The two subscripts are only added up: [m[i][j]] and
    [m[i'][j']] are the same slot whenever [nv_ptr[i] + j] and
    [nv_ptr[i'] + j'] are the same number, for reading and for
    assigning, and the same holds for [F]; an index [j] past [nv[i]]
    reaches into the next scheme. *)
Theorem subscripts_add_up self i i' j j' w base base' :
  nv_ptr_at self i = Return base ->
  nv_ptr_at self i' = Return base' ->
  base + j = base' + j' ->
  m self i (Int j) w = m self i' (Int j') w /\
  F self i (Int j) w = F self i' (Int j') w /\
  (forall v, m_setter self i (Int j) v w = m_setter self i' (Int j') v w) /\
  (forall v, F_setter self i (Int j) v w = F_setter self i' (Int j') v w).
Proof.
  intros Hbase Hbase' Hsum.
  unfold m, F, m_setter, F_setter, offset, mbind, lift.
  rewrite Hbase, Hbase'. simpl. by rewrite Hsum.
Qed.

(** *** [initialization], when it does not go through *)

(** X17. In a dimension other than 1 and 2 the name [coords] is never
    bound: [initialization] ends in a [NameError] at the first item of
    an ['init'] dictionary, before any slot is assigned and before the
    scheme is called. *)
Theorem initialization_needs_coords self dico w ity s ss kv items :
  dim self <> 1 -> dim self <> 2 ->
  inittype dico = Some ity ->
  schemes dico = Some (s :: ss) ->
  init s = Some (kv :: items) ->
  initialization self dico w = (Raise NameError, w).
Proof.
  intros H1 H2 Hity Hs Hinit.
  unfold initialization, coords_of, mbind, lift.
  rewrite Hity, Hs. simpl.
  destruct (Z.eqb_spec (dim self) 1); [done|].
  destruct (Z.eqb_spec (dim self) 2); [done|].
  unfold fill_scheme, mbind, lift. simpl. by rewrite Hinit.
Qed.

(** X18. A key that is missing is a [KeyError] that [initialization]
    lets through, with the buffers and the log as they were: ['inittype']
    whatever else the dictionary holds, ['schemes'] once [coords] is
    bound, and ['init'] in the first scheme. *)
Theorem initialization_KeyError self dico w :
  inittype dico = None \/
  (inittype dico <> None /\ returns (coords_of self) = true /\
   (schemes dico = None \/
    exists s ss, schemes dico = Some (s :: ss) /\ init s = None)) ->
  initialization self dico w = (Raise KeyError, w).
Proof.
  unfold initialization, mbind, lift.
  intros [->|(Hity & Hc & Hs)]; [done|].
  destruct (inittype dico) as [ity|]; [|done]. simpl.
  destruct (coords_of self) as [c| |]; [|done..].
  destruct Hs as [->|(s & ss & -> & Hinit)]; [done|].
  simpl. unfold fill_scheme, mbind, lift. simpl. by rewrite Hinit.
Qed.

(** In the spatial-index-fastest layout an assignment needs a buffer
    of three axes. *)
Lemma store_slot_needs_three_axes self buf idx v w u w' :
  nv_on_beg self = false ->
  (length (shape (heap w !!! buf)) < 3)%nat ->
  store_slot self buf idx v w = (Return u, w') -> False.
Proof.
  intros Hnv Hlen Hstore.
  apply store_slot_inv in Hstore as (k & Hk & _).
  unfold slot_of in Hk. rewrite Hnv in Hk.
  destruct (Nat.compare_spec (length (shape (heap w !!! buf))) 3);
    [lia|done|lia].
Qed.

Lemma for_each_fill_scheme_nothing self moments coords
    (l : list (Z * SchemeDico R slab)) w u w' :
  nv_on_beg self = false ->
  (length (shape (heap w !!! init_target self moments)) < 3)%nat ->
  for_each (fill_scheme self moments coords) l w = (Return u, w') ->
  w' = w /\ Forall (fun nss => init (snd nss) = Some []) l.
Proof.
  intros Hnv Hlen. revert u w'.
  induction l as [|nss l IH]; intros u w' Hrun.
  - injection Hrun as _ <-. by split.
  - simpl in Hrun. apply mbind_inv in Hrun as (u1 & w1 & Hfill & Hrun).
    unfold fill_scheme in Hfill.
    apply mbind_inv in Hfill as (items & w0 & Hitems & Hfill).
    apply lift_inv in Hitems as [Hitems ->].
    destruct items as [|kv items].
    + injection Hfill as _ <-.
      destruct (IH _ _ Hrun) as [-> Hall]. split; [done|].
      constructor; [|done].
      unfold key in Hitems. by destruct (init (snd nss)); inversion Hitems.
    + exfalso. simpl in Hfill.
      apply mbind_inv in Hfill as (u2 & w2 & Hitem & _).
      unfold fill_item in Hitem.
      apply mbind_inv in Hitem as (fargs & w3 & Hargs & Hitem).
      apply lift_inv in Hargs as [_ ->].
      apply mbind_inv in Hitem as (base & w3 & Hbase & Hitem).
      apply lift_inv in Hbase as [_ ->].
      by eapply store_slot_needs_three_axes.
Qed.

(** X19. The spatial-index-fastest layout is written for two
    dimensions: its assignments [buf[:, :, k] = value] need buffers of
    three axes.  When the domain has fewer than two directions and the
    constructor returns in that layout, every ['init'] dictionary was
    empty: no initialisation function has been run. *)
Theorem last_layout_fills_two_dimensions_only
    (junk : slab)
    (Domain_new : Dico R slab -> outcome (Domain.t R slab))
    (Scheme_new :
       Dico R slab -> bool -> outcome (Scheme.t R slab Boundary))
    (Boundary_new : Domain.t R slab -> Dico R slab -> outcome Boundary)
    dico dom sch nvb w self w' schs :
  Simulation_init junk Domain_new Scheme_new Boundary_new
    dico dom sch nvb w = (Return self, w') ->
  nv_on_beg self = false ->
  (length (Domain.Na (domain self)) < 2)%nat ->
  schemes dico = Some schs ->
  Forall (fun s => init s = Some []) schs.
Proof.
  intros Hinit Hnv HNa Hschs.
  destruct (Simulation_init_inv _ _ _ _ _ _ _ _ _ _ _ Hinit)
    as (nvtot & w1 & _ & _ & _ & _ & _ & _ & _ & _ & _ & Halloc & _
        & Hini).
  apply allocate_inv in Halloc as (Hm & HF & HFold & Hheap & Hlog).
  rewrite Hnv in Hheap. cbv zeta in Hheap.
  unfold initialization in Hini.
  apply mbind_inv in Hini as (ity & w0 & Hity & Hini).
  apply lift_inv in Hity as [_ ->].
  apply mbind_inv in Hini as (coords & w0 & Hc & Hini).
  apply lift_inv in Hc as [_ ->].
  apply mbind_inv in Hini as (schs0 & w0 & Hs & Hini).
  apply lift_inv in Hs as [Hs ->].
  rewrite Hschs in Hs. injection Hs as <-.
  apply mbind_inv in Hini as (u & w2 & Hfill & _).
  apply for_each_fill_scheme_nothing in Hfill as [_ Hall]; [|done|].
  - apply Forall_lookup. intros i s Hi.
    rewrite Forall_lookup in Hall.
    apply (Hall i (Z.of_nat i, s)).
    unfold enumerate. by rewrite list_lookup_imap, Hi.
  - rewrite Hheap.
    assert (length (shape (((heap w ++ replicate 3
              {| shape := reverse (Domain.Na (domain self)) ++ [nvtot];
                 slots := replicate (Z.to_nat nvtot) junk |}))
              !!! init_target self (String.eqb ity "moments"))) = 
            S (length (Domain.Na (domain self)))) as ->; [|lia].
    unfold init_target.
    destruct (String.eqb ity "moments").
    + rewrite Hm, lookup_total_app_r by lia. rewrite Nat.sub_diag.
      simpl. rewrite length_app, length_reverse. simpl. lia.
    + rewrite HF, Hm, lookup_total_app_r by lia.
      replace (S (length (heap w)) - length (heap w))%nat with 1%nat
        by lia.
      simpl. rewrite length_app, length_reverse. simpl. lia.
Qed.

(** *** [initialization], when it goes through *)

Lemma stored_trans (n1 n2 : nat) w1 w2 w3 :
  (exists st, log w2 = log w1 ++ st /\ length st = n1) ->
  (exists st, log w3 = log w2 ++ st /\ length st = n2) ->
  exists st, log w3 = log w1 ++ st /\ length st = (n1 + n2)%nat.
Proof.
  intros (s1 & Hl1 & Hn1) (s2 & Hl2 & Hn2). exists (s1 ++ s2).
  rewrite Hl2, Hl1, app_assoc, length_app. by rewrite Hn1, Hn2.
Qed.

Lemma fill_item_stored self moments coords ns kv w u w' :
  fill_item self moments coords ns kv w = (Return u, w') ->
  exists st, log w' = log w ++ st /\ length st = 1%nat.
Proof.
  unfold fill_item. intros Hfill.
  apply mbind_inv in Hfill as (fargs & w1 & Hargs & Hfill).
  apply lift_inv in Hargs as [_ ->].
  apply mbind_inv in Hfill as (base & w1 & Hbase & Hfill).
  apply lift_inv in Hbase as [_ ->].
  apply store_slot_inv in Hfill as (k & _ & _ & ->). by eexists.
Qed.

Lemma for_each_stored {A} (body : A -> M slab unit) (size : A -> nat) :
  (forall a w u w', body a w = (Return u, w') ->
                    exists st, log w' = log w ++ st /\ length st = size a) ->
  forall l w u w',
    for_each body l w = (Return u, w') ->
    exists st, log w' = log w ++ st /\
               length st = sum_list (size <$> l).
Proof.
  intros Hbody l. induction l as [|a l IH]; intros w u w' Hrun.
  - injection Hrun as _ <-. exists []. by rewrite app_nil_r.
  - simpl in Hrun. apply mbind_inv in Hrun as (u1 & w1 & Ha & Hrun).
    simpl. eapply stored_trans; [by eapply Hbody|by eapply IH].
Qed.

Lemma fill_scheme_stored self moments coords
    (nss : Z * SchemeDico R slab) w u w' :
  fill_scheme self moments coords nss w = (Return u, w') ->
  exists st, log w' = log w ++ st /\
             length st = length (default [] (init (snd nss))).
Proof.
  unfold fill_scheme. intros Hfill.
  apply mbind_inv in Hfill as (items & w1 & Hitems & Hfill).
  apply lift_inv in Hitems as [Hitems ->].
  unfold key in Hitems.
  destruct (init (snd nss)) as [items'|]; [|done].
  injection Hitems as ->. simpl.
  destruct (for_each_stored _ (fun _ => 1%nat)
              (fill_item_stored self moments coords (fst nss))
              _ _ _ _ Hfill) as (st & Hlog & Hlen).
  exists st. split; [done|]. rewrite Hlen.
  clear. induction items as [|kv items IH]; simpl; [done|].
  f_equal. exact IH.
Qed.

Lemma close_initialization_steps_only self moments w :
  steps_only w (snd (close_initialization self moments w)).
Proof.
  revert w. unfold close_initialization. destruct moments.
  - apply mbind_steps_only; intros; [apply call1_steps_only|].
    apply call2_steps_only.
  - intros. apply call2_steps_only.
Qed.

Lemma count_items_enumerate (schs : list (SchemeDico R slab)) :
  count_items schs
  = sum_list ((fun nss : Z * SchemeDico R slab =>
                 length (default [] (init (snd nss)))) <$> enumerate schs).
Proof.
  unfold count_items, enumerate. rewrite fmap_imap.
  by rewrite <- (imap_const _ schs).
Qed.

Lemma initialization_heap_length self dico w self' w' :
  initialization self dico w = (Return self', w') ->
  length (heap w') = length (heap w).
Proof.
  unfold initialization. intros Hinit.
  apply mbind_inv in Hinit as (ity & w0 & Hity & Hinit).
  apply lift_inv in Hity as [_ ->].
  apply mbind_inv in Hinit as (coords & w0 & Hc & Hinit).
  apply lift_inv in Hc as [_ ->].
  apply mbind_inv in Hinit as (schs & w0 & Hs & Hinit).
  apply lift_inv in Hs as [_ ->].
  apply mbind_inv in Hinit as (u & w1 & Hfill & Hinit).
  apply mbind_inv in Hinit as (u1 & w2 & Hclose & Hinit).
  apply mbind_inv in Hinit as (u2 & w3 & Hcopy & Hret).
  injection Hret as _ <-.
  assert (fills (init_target self (String.eqb ity "moments")) w w1)
    as (_ & _ & Hheap1 & _).
  { eapply for_each_fills; [|exact Hfill].
    intros. by eapply fill_scheme_fills. }
  pose proof (close_initialization_steps_only self
                (String.eqb ity "moments") w1) as (Hheap2 & _).
  rewrite Hclose in Hheap2. simpl in Hheap2.
  destruct (nv_on_beg self); simpl in Hcopy.
  - injection Hcopy as _ <-. congruence.
  - pose proof (copy_buffer_steps_only (_Fold self) (_F self) w2)
      as (Hheap3 & _).
    rewrite Hcopy in Hheap3. simpl in Hheap3. congruence.
Qed.

(** X20. An [initialization] that returns has assigned one slot per
    item of the ['init'] dictionaries, all in one buffer ([m] when
    [inittype] is ['moments'], [F] otherwise), and has ended with the
    calls that compute the other buffer: the log grows by that many
    assignments followed by those calls, and no buffer is added. *)
Theorem initialization_assigns_once_per_item self dico w self' w' schs :
  initialization self dico w = (Return self', w') ->
  schemes dico = Some schs ->
  exists ity stores,
    inittype dico = Some ity /\
    log w' = log w ++ stores ++
               closing_events self (String.eqb ity "moments") /\
    length stores = count_items schs /\
    Forall (fun e => is_store_into
                       (init_target self (String.eqb ity "moments")) e
                     = true) stores /\
    length (heap w') = length (heap w).
Proof.
  intros Hinit Hschs.
  pose proof (initialization_heap_length _ _ _ _ _ Hinit) as Hheap.
  unfold initialization in Hinit.
  apply mbind_inv in Hinit as (ity & w0 & Hity & Hinit).
  apply lift_inv in Hity as [Hity ->].
  apply mbind_inv in Hinit as (coords & w0 & Hc & Hinit).
  apply lift_inv in Hc as [_ ->].
  apply mbind_inv in Hinit as (schs0 & w0 & Hs & Hinit).
  apply lift_inv in Hs as [Hs ->].
  rewrite Hschs in Hs. injection Hs as <-.
  apply mbind_inv in Hinit as (u & w1 & Hfill & Hinit).
  apply mbind_inv in Hinit as (u1 & w2 & Hclose & Hinit).
  apply mbind_inv in Hinit as (u2 & w3 & Hcopy & Hret).
  injection Hret as _ <-.
  set (moments := String.eqb ity "moments") in *.
  destruct (for_each_stored _ _
              (fill_scheme_stored self moments coords) _ _ _ _ Hfill)
    as (stores & Hlog1 & Hlen).
  assert (fills (init_target self moments) w w1) as Hfills.
  { eapply for_each_fills; [|exact Hfill].
    intros. by eapply fill_scheme_fills. }
  destruct Hfills as ((stores' & Hlog1' & Hall) & _).
  rewrite Hlog1 in Hlog1'. apply app_inv_head in Hlog1' as <-.
  destruct (close_initialization_log self moments w1) as (h & Hclose').
  rewrite Hclose' in Hclose. injection Hclose as _ <-.
  exists ity, stores. split.
  { unfold key in Hity. by destruct (inittype dico); inversion Hity. }
  rewrite count_items_enumerate.
  split; [|by repeat split].
  unfold closing_events. fold moments.
  destruct (nv_on_beg self); simpl in *.
  - injection Hcopy as _ <-. simpl.
    by rewrite app_nil_r, Hlog1, <- app_assoc.
  - apply copy_buffer_inv in Hcopy as (d & -> & _ & ->). simpl.
    by rewrite Hlog1, <- !app_assoc.
Qed.

(** *** The constructor *)

(** X21. What a constructor that returns has set up: [_m], [_F] and (in
    the spatial-index-fastest layout only) [_Fold] are the two or three
    buffers it has added, and the heap has grown by exactly these; the
    layout is the one of the scheme, so that with a scheme passed in the
    argument [nv_on_beg] has no effect; a domain and a scheme passed in
    are the ones of the object; the dimension is the common dimension
    of both; and the lattice speed is not zero. *)
Theorem constructor_invariants
    (junk : slab)
    (Domain_new : Dico R slab -> outcome (Domain.t R slab))
    (Scheme_new :
       Dico R slab -> bool -> outcome (Scheme.t R slab Boundary))
    (Boundary_new : Domain.t R slab -> Dico R slab -> outcome Boundary)
    dico dom sch nvb w self w' :
  Simulation_init junk Domain_new Scheme_new Boundary_new
    dico dom sch nvb w = (Return self, w') ->
  _m self = length (heap w) /\
  _F self = S (length (heap w)) /\
  _Fold self = (if nv_on_beg self then None
                else Some (S (S (length (heap w))))) /\
  length (heap w')
  = (length (heap w) + if nv_on_beg self then 2 else 3)%nat /\
  nv_on_beg self = Scheme.nv_on_beg (scheme self) /\
  (forall s, sch = Some s -> scheme self = s) /\
  (forall d, dom = Some d -> domain self = d) /\
  dim self = Domain.dim (domain self) /\
  dim self = Scheme.dim (scheme self) /\
  is_zero (Scheme.la (scheme self)) = false.
Proof.
  intros Hinit.
  destruct (Simulation_init_inv _ _ _ _ _ _ _ _ _ _ _ Hinit)
    as (nvtot & w1 & Hd & Hs & _ & _ & Hdt & Hdim & Hdim' & Hnv & _
        & Halloc & _ & Hini).
  apply allocate_inv in Halloc as (Hm & HF & HFold & Hheap & _).
  apply initialization_heap_length in Hini.
  split; [done|]. split; [congruence|]. split; [by rewrite HFold, Hm|].
  split.
  { rewrite Hini, Hheap, length_app, length_replicate.
    by destruct (nv_on_beg self). }
  split; [done|]. split.
  { intros s ->. simpl in Hs. by injection Hs. }
  split.
  { intros d ->. simpl in Hd. by injection Hd. }
  split; [done|]. split; [congruence|].
  unfold truediv in Hdt. by destruct (is_zero _).
Qed.

(** X22. The constructor builds the domain and the scheme itself when
    they are not passed in, and of what their constructors raise it
    catches the [KeyError] only, which becomes [sys.exit()]; any other
    exception leaves the constructor as it is.  In both cases nothing
    has been allocated and nothing called. *)
Theorem constructor_exits_on_KeyError
    (junk : slab)
    (Domain_new : Dico R slab -> outcome (Domain.t R slab))
    (Scheme_new :
       Dico R slab -> bool -> outcome (Scheme.t R slab Boundary))
    (Boundary_new : Domain.t R slab -> Dico R slab -> outcome Boundary)
    dico dom sch nvb w e :
  (dom = None /\ Domain_new dico = Raise e) \/
  (sch = None /\ Scheme_new dico nvb = Raise e /\
   exists d, exit_on_KeyError
               (match dom with Some d => Return d | None => Domain_new dico end)
             = Return d) ->
  Simulation_init junk Domain_new Scheme_new Boundary_new
    dico dom sch nvb w
  = (match e with KeyError => Exit | _ => Raise e end, w).
Proof.
  unfold Simulation_init, mbind, lift.
  intros [[-> ->]|(-> & -> & d & ->)]; by destruct e.
Qed.

End Generic.

Lemma run_repeats_the_step_witness :
  exists w',
    run 8 toy.sim toy.start = (Return (Nat.iter 8 advance_clock toy.sim), w') /\
    log w' = log toy.start ++ mjoin (replicate 8 (step_events toy.sim)).
Proof.
  destruct (run_repeats_the_step 8 toy.sim toy.start eq_refl)
    as (w' & Hrun & Hlog & _).
  exists w'. split; [exact Hrun|exact Hlog].
Defined.

Lemma step_exchanges_the_buffers_witness :
  exists self' w',
    one_time_step toy.sim2 toy.start2 = (Return self', w') /\
    _F self' = 2%nat /\ _Fold self' = Some 1%nat /\ _m self' = 0%nat.
Proof.
  destruct swap_step_example as (self' & w' & Hstep & _).
  destruct (step_exchanges_the_buffers toy.sim2 toy.start2 self' w'
              eq_refl Hstep)
    as (ftmp & wmid & Hftmp & HF & HFold & Hm & _).
  injection Hftmp as <-.
  exists self', w'. repeat split; assumption.
Defined.

Lemma two_steps_last_layout :
  exists self' w', run 2 toy.sim2 toy.start2 = (Return self', w').
Proof. vm_compute. eexists _, _. reflexivity. Qed.

Lemma buffers_alternate_witness :
  exists self' w',
    run 2 toy.sim2 toy.start2 = (Return self', w') /\
    _m self' = 0%nat /\ _F self' = 1%nat /\ _Fold self' = Some 2%nat.
Proof.
  destruct two_steps_last_layout as (self' & w' & Hrun).
  pose proof (buffers_alternate 2 toy.sim2 toy.start2 self' w' 2%nat
                eq_refl eq_refl Hrun) as Halt.
  simpl in Halt. destruct Halt as (Hm & HF & HFold).
  exists self', w'. repeat split; assumption.
Defined.

Lemma m_setter_then_m_witness :
  exists w' k,
    m_setter toy.sim 0 (Int 1) [1; 2; 3; 4; 5; 6]%float toy.start
    = (Return toy.sim, w') /\
    m toy.sim 0 (Int 1) w' = (Return (SlotView 0%nat k), w') /\
    view_read (heap w') (SlotView 0%nat k) = [[1; 2; 3; 4; 5; 6]%float].
Proof.
  assert (m_setter toy.sim 0 (Int 1) [1; 2; 3; 4; 5; 6]%float toy.start
          = (Return toy.sim,
             snd (m_setter toy.sim 0 (Int 1) [1; 2; 3; 4; 5; 6]%float
                    toy.start))) as Hset
    by (vm_compute; reflexivity).
  destruct (m_setter_then_m toy.sim 0 1 _ toy.start _ _
              (or_introl eq_refl) Hset)
    as (_ & k & Hget & Hread & _).
  eexists _, k. split; [exact Hset|]. split; [exact Hget|exact Hread].
Defined.

Lemma F_setter_then_F_witness :
  exists w' k,
    F_setter toy.sim 0 (Int (-1)) [1; 2; 3; 4; 5; 6]%float toy.start
    = (Return toy.sim, w') /\
    F toy.sim 0 (Int (-1)) w' = (Return (SlotView 1%nat k), w') /\
    view_read (heap w') (SlotView 1%nat k) = [[1; 2; 3; 4; 5; 6]%float].
Proof.
  assert (F_setter toy.sim 0 (Int (-1)) [1; 2; 3; 4; 5; 6]%float toy.start
          = (Return toy.sim,
             snd (F_setter toy.sim 0 (Int (-1)) [1; 2; 3; 4; 5; 6]%float
                    toy.start))) as Hset
    by (vm_compute; reflexivity).
  destruct (F_setter_then_F toy.sim 0 (-1) _ toy.start _ _
              (or_introl eq_refl) Hset)
    as (_ & k & Hget & Hread & _).
  eexists _, k. split; [exact Hset|]. split; [exact Hget|exact Hread].
Defined.


Lemma m_Slice_explicit_witness :
  m toy.sim 0 (Slice {| start := Some 0; stop := Some 2; step := Some 7 |})
    toy.start
  = (Return (RangeView 0%nat 0%nat 2%nat), toy.start).
Proof.
  apply (m_Slice_explicit toy.sim 0 0 2 (Some 7) toy.start 0).
  - left. reflexivity.
  - reflexivity.
  - lia.
  - vm_compute. discriminate.
Defined.

Lemma subscripts_add_up_witness :
  m toy.sim 1 (Int (-1)) toy.start = m toy.sim 0 (Int 1) toy.start.
Proof.
  apply (subscripts_add_up toy.sim 1 0 (-1) 1 toy.start 2 0).
  - reflexivity.
  - reflexivity.
  - lia.
Defined.

Lemma initialization_needs_coords_witness :
  initialization sim3 (toy.dico "moments") toy.start
  = (Raise NameError, toy.start).
Proof.
  apply (initialization_needs_coords sim3 (toy.dico "moments") toy.start
           "moments"
           {| init := Some [(0, {| init_fun := toy.step_function;
                                   init_rest := [] |})] |}
           []
           (0, {| init_fun := toy.step_function; init_rest := [] |})
           []).
  - simpl. lia.
  - simpl. lia.
  - reflexivity.
  - reflexivity.
  - reflexivity.
Defined.

Lemma initialization_KeyError_witness :
  initialization toy.sim {| inittype := None; schemes := Some [] |}
    toy.start
  = (Raise KeyError, toy.start).
Proof.
  apply (initialization_KeyError toy.sim
           {| inittype := None; schemes := Some [] |} toy.start).
  left. reflexivity.
Defined.

Lemma new_without_items_returns :
  new_without_items = (Return sim1_last, snd new_without_items).
Proof. vm_compute. reflexivity. Qed.

(** With an item to initialise, the same constructor stops at the
    first assignment, the three buffers being allocated. *)
Lemma one_dimension_last_layout_example :
  toy.new "moments" 1 false = (Raise IndexError, allocated1).
Proof. vm_compute. reflexivity. Qed.

Lemma last_layout_fills_two_dimensions_only_witness :
  new_without_items = (Return sim1_last, snd new_without_items) /\
  Forall (fun s : SchemeDico float toy.field => init s = Some [])
         [{| init := Some [] |}].
Proof.
  split; [exact new_without_items_returns|].
  apply (last_layout_fills_two_dimensions_only
           [] toy.no_domain toy.no_scheme toy.boundary
           (dico_without_items "moments")
           (Some (toy.domain 1)) (Some (toy.scheme 1 false)) false
           toy.nothing sim1_last (snd new_without_items)).
  - exact new_without_items_returns.
  - reflexivity.
  - simpl. lia.
  - reflexivity.
Defined.

Lemma initialization_again :
  initialization toy.sim (toy.dico "moments") toy.start
  = (Return toy.sim,
     snd (initialization toy.sim (toy.dico "moments") toy.start)).
Proof. vm_compute. reflexivity. Qed.

Lemma initialization_assigns_once_per_item_witness :
  exists w' stores,
    initialization toy.sim (toy.dico "moments") toy.start
    = (Return toy.sim, w') /\
    log w' = log toy.start ++ stores ++
               [Call Equilibrium [0%nat]; Call M2f [0%nat; 1%nat]] /\
    length stores = 1%nat.
Proof.
  destruct (initialization_assigns_once_per_item
              toy.sim (toy.dico "moments") toy.start toy.sim _
              [{| init := Some [(0, {| init_fun := toy.step_function;
                                       init_rest := [] |})] |}]
              initialization_again eq_refl)
    as (ity & stores & Hity & Hlog & Hlen & _).
  injection Hity as <-.
  eexists _, stores. split; [exact initialization_again|].
  split; [exact Hlog|exact Hlen].
Defined.

Lemma layout_of_the_scheme :
  Simulation_init [] toy.no_domain toy.no_scheme toy.boundary
    (toy.dico "moments") (Some (toy.domain 1)) (Some (toy.scheme 1 true))
    false toy.nothing
  = (Return toy.sim, toy.start).
Proof. vm_compute. reflexivity. Qed.

Lemma constructor_invariants_witness :
  Simulation_init [] toy.no_domain toy.no_scheme toy.boundary
    (toy.dico "moments") (Some (toy.domain 1)) (Some (toy.scheme 1 true))
    false toy.nothing
  = (Return toy.sim, toy.start) /\
  _m toy.sim = 0%nat /\ _F toy.sim = 1%nat /\
  length (heap toy.start) = 2%nat /\ nv_on_beg toy.sim = true.
Proof.
  split; [exact layout_of_the_scheme|].
  destruct (constructor_invariants _ _ _ _ _ _ _ _ _ _ _
              layout_of_the_scheme)
    as (Hm & HF & _ & Hheap & Hnv & _).
  split; [exact Hm|]. split; [exact HF|]. split; [exact Hheap|].
  exact Hnv.
Defined.

Lemma constructor_exits_on_KeyError_witness :
  Simulation_init [] domain_without_key toy.no_scheme toy.boundary
    (toy.dico "moments") None None true toy.nothing
  = (Exit, toy.nothing).
Proof.
  apply (constructor_exits_on_KeyError
           [] domain_without_key toy.no_scheme toy.boundary
           (toy.dico "moments") None None true toy.nothing KeyError).
  left. split; reflexivity.
Defined.

End simulation_more.
